(** * Matrix8x8: the HT16K33 8x8 LED matrix driver of [matrix8x8.py]

    A shallow embedding of the driver class [Matrix8x8] and of the module
    function [rotate_right], followed by the properties of the driver.

    Python integers are modelled by [Z] (the bit operations of Python on
    unbounded integers are those of [Z]), the [bytearray] framebuffer by a
    [list Z], and the methods of the class by computations in a state and
    exception monad over the attributes of the instance.  The I2C object is
    an external collaborator: it is modelled by the list of the calls of
    [i2c.send] it has received, each with its data and its address, and it
    accepts every call.  The arguments of the methods are integers, and a
    bitmap is a sequence of integers. *)

From Stdlib Require Import ZArith Lia Bool.
From stdpp Require Import base list.

Local Open Scope Z_scope.

(** ** Python values and exceptions *)

Inductive exn : Type :=
| IndexError
| ValueError.

Inductive result (A : Type) : Type :=
| Ok (a : A)
| Raise (e : exn).

Arguments Ok {A} a.
Arguments Raise {A} e.

(** [a >> n] and [a << n]: a negative shift count is a [ValueError]. *)
Definition py_rshift (a n : Z) : result Z :=
  if n <? 0 then Raise ValueError else Ok (Z.shiftr a n).

Definition py_lshift (a n : Z) : result Z :=
  if n <? 0 then Raise ValueError else Ok (Z.shiftl a n).

(** Truth value of an integer in a condition. *)
Definition truthy (z : Z) : bool := negb (z =? 0).

(** The values an element of a [bytes] or [bytearray] object can hold. *)
Definition is_byte (z : Z) : bool := (0 <=? z) && (z <? 256).

(** Index of a sequence of length [len]: a negative index counts from the
    end, and an index out of range after that is rejected. *)
Definition norm_index (len : nat) (i : Z) : option nat :=
  let j := if i <? 0 then i + Z.of_nat len else i in
  if (0 <=? j) && (j <? Z.of_nat len) then Some (Z.to_nat j) else None.

(** [seq[i]] for a tuple, [bytes] or [bytearray]. *)
Definition getitem {A : Type} (l : list A) (i : Z) : result A :=
  match norm_index (length l) i with
  | Some n =>
      match l !! n with
      | Some x => Ok x
      | None => Raise IndexError
      end
  | None => Raise IndexError
  end.

(** [b[i] = v] for a [bytearray]: the value is checked first, and must be
    in [range(0, 256)], then the index. *)
Definition bytearray_setitem (l : list Z) (i v : Z) : result (list Z) :=
  if is_byte v
  then
    match norm_index (length l) i with
    | Some n => Ok (<[n := v]> l)
    | None => Raise IndexError
    end
  else Raise ValueError.

(** [bytearray(n)]: [n] zero bytes. *)
Definition bytearray_zeros (n : nat) : list Z := replicate n 0.

(** [bytearray(iterable)] and [bytes(iterable)] over integers: every element
    must be in [range(0, 256)]. *)
Definition bytes_of (l : list Z) : result (list Z) :=
  if forallb is_byte l then Ok l else Raise ValueError.

(** [range(n)] *)
Definition range (n : nat) : list Z := map Z.of_nat (seq 0 n).

(** ** The module function [rotate_right] *)

Definition rotate_right (byte : Z) : Z :=
  let byte := Z.land byte 0xFF in
  let bit := Z.land byte 0x01 in
  let byte := Z.shiftr byte 1 in
  if truthy bit then Z.lor byte 0x80 else byte.

(** ** The driver object *)

(** What [i2c.send] is given: an integer (one byte on the wire) or a buffer. *)
Inductive data : Type :=
| Int (z : Z)
| Buf (l : list Z).

(** The attributes of a [Matrix8x8] instance.  [i2c] holds the calls of
    [i2c.send(data, addr)] made so far, the oldest first. *)
Record Matrix8x8 : Type := mkMatrix8x8 {
  _blinking : Z;
  addr : Z;
  buf : list Z;
  is_on : bool;
  i2c : list (data * Z)
}.

Definition row_addr : list Z :=
  [0x00; 0x02; 0x04; 0x06; 0x08; 0x0A; 0x0C; 0x0E].

Definition with_blinking (v : Z) (s : Matrix8x8) : Matrix8x8 :=
  mkMatrix8x8 v (addr s) (buf s) (is_on s) (i2c s).

Definition with_buf (b : list Z) (s : Matrix8x8) : Matrix8x8 :=
  mkMatrix8x8 (_blinking s) (addr s) b (is_on s) (i2c s).

Definition with_is_on (v : bool) (s : Matrix8x8) : Matrix8x8 :=
  mkMatrix8x8 (_blinking s) (addr s) (buf s) v (i2c s).

Definition with_i2c (l : list (data * Z)) (s : Matrix8x8) : Matrix8x8 :=
  mkMatrix8x8 (_blinking s) (addr s) (buf s) (is_on s) l.

(** ** The monad of the methods

    A method runs on the instance and either returns or raises; what it
    has written to the instance before raising stays written. *)

Definition M (A : Type) : Type := Matrix8x8 -> result A * Matrix8x8.

Definition ret {A : Type} (a : A) : M A := fun s => (Ok a, s).

Definition bind {A B : Type} (m : M A) (k : A -> M B) : M B :=
  fun s =>
    match m s with
    | (Ok a, s') => k a s'
    | (Raise e, s') => (Raise e, s')
    end.

Definition lift {A : Type} (r : result A) : M A := fun s => (r, s).

(** Reading an attribute of the instance. *)
Definition gets {A : Type} (f : Matrix8x8 -> A) : M A :=
  fun s => (Ok (f s), s).

Definition modify (f : Matrix8x8 -> Matrix8x8) : M unit :=
  fun s => (Ok tt, f s).

Notation "x <- m ;; k" := (bind m (fun x => k))
  (at level 100, m at next level, right associativity).
Notation "m ;; k" := (bind m (fun _ => k))
  (at level 100, right associativity).

(** [for x in xs: body], where the body updates the local variables [l]. *)
Fixpoint for_in {A L : Type} (xs : list A) (body : A -> L -> M L) (l : L)
  : M L :=
  match xs with
  | [] => ret l
  | x :: xs' => l' <- body x l ;; for_in xs' body l'
  end.

(** [self.buf[row]] *)
Definition buf_getitem (row : Z) : M Z :=
  b <- gets buf ;; lift (getitem b row).

(** [self.buf[row] = v]: the bytearray is updated in place. *)
Definition buf_setitem (row v : Z) : M unit :=
  b <- gets buf ;;
  b' <- lift (bytearray_setitem b row v) ;;
  modify (with_buf b').

(** ** The methods

    An in-place operation [self.buf[row] op= e] reads [self.buf[row]], then
    evaluates [e], then writes the row. *)

Definition _send (d : data) : M unit :=
  modify (fun s => with_i2c (i2c s ++ [(d, addr s)]) s).

Definition _send_row (row : Z) : M unit :=
  a <- lift (getitem row_addr row) ;;
  x <- buf_getitem row ;;
  d <- lift (bytes_of [a; rotate_right x]) ;;
  _send (Buf d).

(** The local variables of the loop of [_send_buf] are [(data, i)]. *)
Definition _send_buf : M unit :=
  b <- gets buf ;;
  r <- for_in b
      (fun byte '(d, i) =>
         d' <- lift (bytearray_setitem d i (rotate_right byte)) ;;
         ret (d', i + 2))
      (bytearray_zeros 16, 1) ;;
  _send (Buf (fst r)).

Definition _clear_column (column : Z) : M unit :=
  mask <- lift (py_rshift 0x80 column) ;;
  for_in (range 8)
    (fun row (_ : unit) =>
       x <- buf_getitem row ;;
       if truthy (Z.land x mask)
       then y <- buf_getitem row ;; buf_setitem row (Z.lxor y mask)
       else ret tt)
    tt.

Definition _set_column (column byte : Z) : M unit :=
  _clear_column column ;;
  if byte =? 0 then ret tt
  else
    _ <- for_in (range 8)
      (fun row mask =>
         let shift := column - row in
         (if shift >=? 0
          then
            x <- buf_getitem row ;;
            v <- lift (py_rshift (Z.land byte mask) shift) ;;
            buf_setitem row (Z.lor x v)
          else
            x <- buf_getitem row ;;
            v <- lift (py_lshift (Z.land byte mask) (Z.abs shift)) ;;
            buf_setitem row (Z.lor x v)) ;;
         lift (py_rshift mask 1))
      0x80 ;;
    ret tt.

Definition on : M unit :=
  modify (with_is_on true) ;;
  b <- gets _blinking ;;
  v <- lift (py_lshift b 1) ;;
  _send (Int (Z.lor 0x81 v)).

Definition off : M unit :=
  modify (with_is_on false) ;;
  _send (Int 0x80).

Definition set_brightness (value : Z) : M unit :=
  _send (Int (Z.lor 0xE0 value)).

Definition set_blinking (mode : Z) : M unit :=
  modify (with_blinking mode) ;;
  o <- gets is_on ;;
  if o then on else ret tt.

Definition set (bitmap : list Z) : M unit :=
  b <- lift (bytes_of bitmap) ;;
  modify (with_buf b) ;;
  _send_buf.

Definition clear : M unit :=
  for_in (range 8) (fun i (_ : unit) => buf_setitem i 0) tt ;;
  _send_buf.

Definition set_row (row byte : Z) : M unit :=
  buf_setitem row byte ;;
  _send_row row.

Definition clear_row (row : Z) : M unit :=
  set_row row 0.

Definition set_column (column byte : Z) : M unit :=
  _set_column column byte ;;
  _send_buf.

Definition clear_column (column : Z) : M unit :=
  _clear_column column ;;
  _send_buf.

Definition set_pixel (row column : Z) : M unit :=
  x <- buf_getitem row ;;
  m <- lift (py_rshift 0x80 column) ;;
  buf_setitem row (Z.lor x m) ;;
  _send_row row.

Definition clear_pixel (row column : Z) : M unit :=
  x <- buf_getitem row ;;
  m <- lift (py_rshift 0x80 column) ;;
  buf_setitem row (Z.land x (Z.lnot m)) ;;
  _send_row row.

(** [Matrix8x8(addr=a, brightness=brightness, i2c=...)] on an I2C object
    that has received nothing yet: the attributes set before the first
    call, and then the calls of [__init__].  [is_on] does not exist until
    [on] sets it, and nothing reads it before. *)
Definition fresh (a : Z) : Matrix8x8 :=
  mkMatrix8x8 0 a (bytearray_zeros 8) false [].

Definition __init__ (a brightness : Z) : result unit * Matrix8x8 :=
  (_send (Int 0x21) ;;
   set_brightness brightness ;;
   clear ;;
   on) (fresh a).

(** The public methods, as the calls a user of the driver can make. *)
Inductive op : Type :=
| OpOn
| OpOff
| OpSetBrightness (value : Z)
| OpSetBlinking (mode : Z)
| OpSet (bitmap : list Z)
| OpClear
| OpSetRow (row byte : Z)
| OpClearRow (row : Z)
| OpSetColumn (column byte : Z)
| OpClearColumn (column : Z)
| OpSetPixel (row column : Z)
| OpClearPixel (row column : Z).

Definition run (o : op) : M unit :=
  match o with
  | OpOn => on
  | OpOff => off
  | OpSetBrightness value => set_brightness value
  | OpSetBlinking mode => set_blinking mode
  | OpSet bitmap => set bitmap
  | OpClear => clear
  | OpSetRow row byte => set_row row byte
  | OpClearRow row => clear_row row
  | OpSetColumn column byte => set_column column byte
  | OpClearColumn column => clear_column column
  | OpSetPixel row column => set_pixel row column
  | OpClearPixel row column => clear_pixel row column
  end.

(** A caller making the calls [os] one after the other, going on after a
    call that raised. *)
Definition run_all (os : list op) (s : Matrix8x8) : Matrix8x8 :=
  foldl (fun s o => snd (run o s)) s os.

(** The driver as constructed with the default address and brightness. *)
Definition display0 : Matrix8x8 := snd (__init__ 0x70 15).

(** The framebuffer of a live instance: 8 elements, each a byte. *)
Definition wf (s : Matrix8x8) : Prop :=
  length (buf s) = 8%nat /\ forallb is_byte (buf s) = true.

(** ** Functions of the statements *)

(** What [_clear_column] does to one row. *)
Definition clear_bit (mask x : Z) : Z :=
  if truthy (Z.land x mask) then Z.lxor x mask else x.

(** What [_set_column] ors into row [row], whose mask is [mask]. *)
Definition column_bit (column byte row mask : Z) : Z :=
  let shift := column - row in
  if shift >=? 0
  then Z.shiftr (Z.land byte mask) shift
  else Z.shiftl (Z.land byte mask) (Z.abs shift).

(** The buffer [_send_buf] builds from a framebuffer. *)
Definition payload_step (l : list Z * nat) (byte : Z) : list Z * nat :=
  let '(d, i) := l in (<[i := rotate_right byte]> d, (i + 2)%nat).

Definition payload (b : list Z) : list Z :=
  fst (foldl payload_step (bytearray_zeros 16, 1%nat) b).

(** The command [on] sends for a blinking mode. *)
Definition on_command (mode : Z) : Z := Z.lor 0x81 (Z.shiftl mode 1).

(** The byte read back from column [c]: row [k] gives the bit at position
    [k], counted from the most significant one. *)
Definition column_byte (c : Z) (b : list Z) : Z :=
  foldr Z.lor 0
    (imap (fun k x => if truthy (Z.land x (Z.shiftr 0x80 c))
                      then Z.shiftr 0x80 (Z.of_nat k) else 0) b).

(** [x] and [y] have the same bits outside those of [mask]. *)
Definition same_bits_outside (mask x y : Z) : Prop :=
  forall i, 0 <= i -> Z.testbit mask i = false -> Z.testbit y i = Z.testbit x i.

(** All the bytes, for the properties checked on each of them. *)
Definition all_bytes : list Z := range 256.

(** The rows from [k] on rewritten by [F], the rows before [k] kept: the
    framebuffer in the middle of a loop over [range(8)]. *)
Definition imap_from (k : nat) (F : nat -> Z -> Z) (b : list Z) : list Z :=
  imap (fun j x => if (k <=? j)%nat then F j x else x) b.

(** [P] holds after [m] when it held before, whether [m] returns or raises. *)
Definition stable (P : Matrix8x8 -> Prop) {A : Type} (m : M A) : Prop :=
  forall s, P s -> P (snd (m s)).

(** [m] neither reads nor writes [_blinking]: it runs the same whatever
    the attribute holds. *)
Definition blinking_free {A : Type} (m : M A) : Prop :=
  forall v s, m (with_blinking v s) = (fst (m s), with_blinking v (snd (m s))).

(** The calls that end in [_send_buf], with arguments on which they get
    there with a framebuffer of 8 bytes. *)
Definition full_push_call (o : op) : Prop :=
  match o with
  | OpSet bitmap => length bitmap = 8%nat /\ forallb is_byte bitmap = true
  | OpClear => True
  | OpSetColumn column _ => 0 <= column
  | OpClearColumn column => 0 <= column
  | _ => False
  end.

(** The calls that cannot change the length of the framebuffer: all but
    [set] with a bitmap that has not 8 elements. *)
Definition keeps_length (o : op) : Prop :=
  match o with
  | OpSet bitmap => length bitmap = 8%nat
  | _ => True
  end.

(** The calls that send or store the blinking mode. *)
Definition uses_blinking (o : op) : bool :=
  match o with
  | OpOn | OpSetBlinking _ => true
  | _ => false
  end.

(** The loop of [_send_buf], for the statements about it. *)
Definition send_step (byte : Z) (l : list Z * Z) : M (list Z * Z) :=
  let '(d, i) := l in
  d' <- lift (bytearray_setitem d i (rotate_right byte)) ;;
  ret (d', i + 2).

(** The rows [k] to [k + m - 1] zeroed, as far as there are such rows: the
    framebuffer after the loop of [clear] has run over them. *)
Definition zero_rows (k m : nat) (b : list Z) : list Z :=
  imap (fun j x => if (k <=? j)%nat && (j <? k + m)%nat then 0 else x) b.

(** The row of the framebuffer an index in [-8..7] stands for. *)
Definition row_index (r : Z) : nat := Z.to_nat (r mod 8).

(** [m] runs the same on an instance and on the instance changed by
    [upd], and leaves the change in place: it neither reads nor writes
    what [upd] changes. *)
Definition commutes (upd : Matrix8x8 -> Matrix8x8) {A : Type} (m : M A)
  : Prop :=
  forall s, m (upd s) = (fst (m s), upd (snd (m s))).

(** The calls that read or write [is_on]. *)
Definition uses_is_on (o : op) : bool :=
  match o with
  | OpOn | OpOff | OpSetBlinking _ => true
  | _ => false
  end.

(** A computation that ends the way the methods do: it makes one transport
    call and returns, or raises without a call. *)
Definition sender (m : M unit) : Prop :=
  forall s,
    (exists d, m s = (Ok tt, with_i2c (i2c s ++ [(d, addr s)]) s)) \/
    (exists e, m s = (Raise e, s)).

(** The transport has received [l] so far and the address is [a]. *)
Definition transport_is (l : list (data * Z)) (a : Z) (s : Matrix8x8)
  : Prop :=
  i2c s = l /\ addr s = a.

(** The transport had received [l0], and all it has received since went
    to the address [a], which is still the address of the instance. *)
Definition grown_from (l0 : list (data * Z)) (a : Z) (s : Matrix8x8)
  : Prop :=
  addr s = a /\
  exists l, i2c s = l0 ++ l /\ Forall (fun e => snd e = a) l.

(** [m] returns after exactly one transport call, or raises after none. *)
Definition one_call (m : M unit) : Prop :=
  forall s,
    (exists s' d,
       m s = (Ok tt, s') /\
       transport_is (i2c s ++ [(d, addr s)]) (addr s) s') \/
    (exists e s',
       m s = (Raise e, s') /\ transport_is (i2c s) (addr s) s').

(** The calls other than [set_blinking]. *)
Definition keeps_blinking (o : op) : bool :=
  match o with
  | OpSetBlinking _ => false
  | _ => true
  end.

(** ** An inverse for the statements about [rotate_right] *)

Definition rotate_left (byte : Z) : Z :=
  Z.lor (Z.land (Z.shiftl byte 1) 0xFF) (Z.shiftr (Z.land byte 0xFF) 7).

(** * Bytes and bits *)

Lemma is_byte_range (x : Z) : is_byte x = true <-> 0 <= x < 256.
Proof.
  unfold is_byte. rewrite andb_true_iff, Z.leb_le, Z.ltb_lt. tauto.
Qed.

Lemma is_byte_land (x : Z) : is_byte x = true <-> Z.land x 0xFF = x.
Proof.
  rewrite is_byte_range. change 0xFF with (Z.ones 8).
  rewrite Z.land_ones by lia. split; intros H.
  - apply Z.mod_small. lia.
  - rewrite <- H. apply Z.mod_pos_bound. lia.
Qed.

Lemma land_FF_byte (x : Z) : is_byte (Z.land x 0xFF) = true.
Proof.
  apply is_byte_range. change 0xFF with (Z.ones 8).
  rewrite Z.land_ones by lia. apply Z.mod_pos_bound. lia.
Qed.

Lemma in_all_bytes (x : Z) : 0 <= x < 256 -> In x all_bytes.
Proof.
  intros Hx. unfold all_bytes, range. apply in_map_iff.
  exists (Z.to_nat x). split; [lia | apply in_seq; lia].
Qed.

(** A decidable property of a byte holds of every byte as soon as it holds
    of the 256 of them. *)
Lemma forall_bytes (P : Z -> bool) :
  forallb P all_bytes = true -> forall x, 0 <= x < 256 -> P x = true.
Proof.
  rewrite forallb_forall. intros H x Hx. apply H, in_all_bytes, Hx.
Qed.

Lemma rotate_right_mask (x : Z) : rotate_right x = rotate_right (Z.land x 0xFF).
Proof.
  unfold rotate_right. rewrite <- (Z.land_assoc x 0xFF 0xFF). reflexivity.
Qed.

Lemma rotate_right_byte (x : Z) : is_byte (rotate_right x) = true.
Proof.
  rewrite rotate_right_mask.
  apply (forall_bytes (fun y => is_byte (rotate_right y))).
  - vm_compute. reflexivity.
  - apply is_byte_range, land_FF_byte.
Qed.

Lemma rotate_left_right (x : Z) :
  0 <= x < 256 -> rotate_left (rotate_right x) = x.
Proof.
  intros Hx. apply Z.eqb_eq.
  apply (forall_bytes (fun y => rotate_left (rotate_right y) =? y)); [ | exact Hx].
  vm_compute. reflexivity.
Qed.

Lemma rotate_right_left (y : Z) :
  0 <= y < 256 -> rotate_right (rotate_left y) = y.
Proof.
  intros Hy. apply Z.eqb_eq.
  apply (forall_bytes (fun y => rotate_right (rotate_left y) =? y)); [ | exact Hy].
  vm_compute. reflexivity.
Qed.

Lemma rotate_left_byte (y : Z) :
  0 <= y < 256 -> is_byte (rotate_left y) = true.
Proof.
  apply (forall_bytes (fun y => is_byte (rotate_left y))).
  vm_compute. reflexivity.
Qed.

(** Bit [i] of the result is bit [i + 1] of the byte, and bit 7 is its
    bit 0: the rotation, whatever the integer given. *)
Lemma rotate_right_testbit (x i : Z) :
  0 <= i ->
  Z.testbit (rotate_right x) i =
  if i <? 7 then Z.testbit x (i + 1)
  else if i =? 7 then Z.testbit x 0 else false.
Proof.
  intros Hi. unfold rotate_right, truthy.
  assert (Hbit : Z.land (Z.land x 0xFF) 0x01 = if Z.testbit x 0 then 1 else 0).
  { rewrite <- Z.land_assoc. change (Z.land 0xFF 0x01) with (Z.ones 1).
    rewrite Z.land_ones by lia. change (2 ^ 1) with 2.
    rewrite <- Z.bit0_mod. now destruct (Z.testbit x 0). }
  assert (Hsh : Z.testbit (Z.shiftr (Z.land x 0xFF) 1) i =
                if i <? 7 then Z.testbit x (i + 1) else false).
  { rewrite Z.shiftr_spec, Z.land_spec by lia. change 0xFF with (Z.ones 8).
    rewrite Z.testbit_ones_nonneg by lia.
    destruct (Z.ltb_spec i 7), (Z.ltb_spec (i + 1) 8); try lia;
      auto using andb_true_r, andb_false_r. }
  rewrite Hbit. destruct (Z.testbit x 0); simpl.
  - rewrite Z.lor_spec, Hsh. change 0x80 with (2 ^ 7).
    rewrite Z.pow2_bits_eqb by lia.
    destruct (Z.ltb_spec i 7), (Z.eqb_spec 7 i), (Z.eqb_spec i 7); try lia;
      simpl; auto using orb_false_r.
  - rewrite Hsh. destruct (Z.ltb_spec i 7), (Z.eqb_spec i 7); auto; lia.
Qed.

(** * Sequences *)

Lemma norm_index_nat (len k : nat) :
  (k < len)%nat -> norm_index len (Z.of_nat k) = Some k.
Proof.
  intros Hk. unfold norm_index.
  destruct (Z.ltb_spec (Z.of_nat k) 0); [lia | ].
  destruct (Z.leb_spec 0 (Z.of_nat k)); [ | lia].
  destruct (Z.ltb_spec (Z.of_nat k) (Z.of_nat len)); [ | lia].
  simpl. now rewrite Nat2Z.id.
Qed.

Lemma norm_index_neg (len : nat) (i : Z) :
  - Z.of_nat len <= i < 0 ->
  norm_index len i = Some (Z.to_nat (i + Z.of_nat len)).
Proof.
  intros Hi. unfold norm_index.
  destruct (Z.ltb_spec i 0); [ | lia].
  destruct (Z.leb_spec 0 (i + Z.of_nat len)); [ | lia].
  destruct (Z.ltb_spec (i + Z.of_nat len) (Z.of_nat len)); [ | lia].
  reflexivity.
Qed.

Lemma norm_index_out (len : nat) (i : Z) :
  i < - Z.of_nat len \/ Z.of_nat len <= i -> norm_index len i = None.
Proof.
  intros Hi. unfold norm_index.
  destruct (Z.ltb_spec i 0).
  - destruct (Z.leb_spec 0 (i + Z.of_nat len)); [ | reflexivity].
    destruct (Z.ltb_spec (i + Z.of_nat len) (Z.of_nat len)); [lia | reflexivity].
  - destruct (Z.leb_spec 0 i); [ | reflexivity].
    destruct (Z.ltb_spec i (Z.of_nat len)); [lia | reflexivity].
Qed.

Lemma getitem_nat {A : Type} (l : list A) (k : nat) (x : A) :
  l !! k = Some x -> getitem l (Z.of_nat k) = Ok x.
Proof.
  intros Hl. unfold getitem.
  rewrite norm_index_nat by (apply lookup_lt_is_Some; eauto).
  now rewrite Hl.
Qed.

Lemma getitem_out {A : Type} (l : list A) (i : Z) :
  i < - Z.of_nat (length l) \/ Z.of_nat (length l) <= i ->
  getitem l i = Raise IndexError.
Proof.
  intros Hi. unfold getitem. now rewrite norm_index_out.
Qed.

Lemma setitem_nat (l : list Z) (k : nat) (v : Z) :
  (k < length l)%nat -> is_byte v = true ->
  bytearray_setitem l (Z.of_nat k) v = Ok (<[k := v]> l).
Proof.
  intros Hk Hv. unfold bytearray_setitem.
  now rewrite Hv, norm_index_nat.
Qed.

Lemma setitem_out (l : list Z) (i v : Z) :
  is_byte v = true ->
  i < - Z.of_nat (length l) \/ Z.of_nat (length l) <= i ->
  bytearray_setitem l i v = Raise IndexError.
Proof.
  intros Hv Hi. unfold bytearray_setitem. now rewrite Hv, norm_index_out.
Qed.

Lemma setitem_not_byte (l : list Z) (i v : Z) :
  is_byte v = false -> bytearray_setitem l i v = Raise ValueError.
Proof. intros Hv. unfold bytearray_setitem. now rewrite Hv. Qed.

Lemma setitem_length (l l' : list Z) (i v : Z) :
  bytearray_setitem l i v = Ok l' -> length l' = length l.
Proof.
  unfold bytearray_setitem.
  destruct (is_byte v); [ | discriminate].
  destruct (norm_index _ _); [ | discriminate].
  intros [= <-]. apply length_insert.
Qed.

Lemma bytes_Forall (l : list Z) :
  forallb is_byte l = true <-> Forall (fun x => is_byte x = true) l.
Proof.
  rewrite forallb_forall, Forall_forall.
  split; intros H x Hx; apply H; now apply list_elem_of_In.
Qed.

Lemma setitem_bytes (l l' : list Z) (i v : Z) :
  forallb is_byte l = true -> bytearray_setitem l i v = Ok l' ->
  forallb is_byte l' = true.
Proof.
  unfold bytearray_setitem. intros Hl.
  destruct (is_byte v) eqn:Hv; [ | discriminate].
  destruct (norm_index _ _); [ | discriminate].
  intros [= <-]. apply bytes_Forall, Forall_insert; [ | exact Hv].
  now apply bytes_Forall.
Qed.

(** * Running the monad *)

Lemma bind_Ok {A B : Type} (m : M A) (k : A -> M B) s a s' :
  m s = (Ok a, s') -> bind m k s = k a s'.
Proof. intros H. unfold bind. now rewrite H. Qed.

Lemma bind_Raise {A B : Type} (m : M A) (k : A -> M B) s e s' :
  m s = (Raise e, s') -> bind m k s = (Raise e, s').
Proof. intros H. unfold bind. now rewrite H. Qed.

Lemma with_buf_buf (s : Matrix8x8) : with_buf (buf s) s = s.
Proof. now destruct s. Qed.

Lemma with_buf_twice (b b' : list Z) (s : Matrix8x8) :
  with_buf b (with_buf b' s) = with_buf b s.
Proof. reflexivity. Qed.

Lemma buf_getitem_nat (s : Matrix8x8) (k : nat) (x : Z) :
  buf s !! k = Some x -> buf_getitem (Z.of_nat k) s = (Ok x, s).
Proof.
  intros H. unfold buf_getitem, bind, gets, lift. now rewrite (getitem_nat _ _ _ H).
Qed.

Lemma buf_setitem_nat (s : Matrix8x8) (k : nat) (v : Z) :
  (k < length (buf s))%nat -> is_byte v = true ->
  buf_setitem (Z.of_nat k) v s = (Ok tt, with_buf (<[k := v]> (buf s)) s).
Proof.
  intros Hk Hv. unfold buf_setitem, bind, gets, lift, modify.
  now rewrite setitem_nat.
Qed.

(** * The invariant of the framebuffer *)

Lemma wf_lookup (s : Matrix8x8) (k : nat) :
  wf s -> (k < 8)%nat -> exists x, buf s !! k = Some x /\ is_byte x = true.
Proof.
  intros [Hlen Hb] Hk.
  destruct (lookup_lt_is_Some_2 (buf s) k) as [x Hx]; [lia | ].
  exists x. split; [exact Hx | ].
  apply bytes_Forall in Hb. rewrite Forall_forall in Hb.
  apply Hb, list_elem_of_lookup. eauto.
Qed.

Lemma wf_insert (s : Matrix8x8) (k : nat) (v : Z) :
  wf s -> is_byte v = true -> wf (with_buf (<[k := v]> (buf s)) s).
Proof.
  intros [Hlen Hb] Hv. split; simpl.
  - now rewrite length_insert.
  - apply bytes_Forall, Forall_insert; [now apply bytes_Forall | exact Hv].
Qed.

(** * Loops over the rows *)

Lemma imap_from_insert (F : nat -> Z -> Z) (b : list Z) (k : nat) (x : Z) :
  b !! k = Some x ->
  imap_from (S k) F (<[k := F k x]> b) = imap_from k F b.
Proof.
  intros Hx. apply list_eq. intros j. unfold imap_from.
  rewrite !list_lookup_imap. destruct (decide (k = j)) as [<- | Hne].
  - rewrite list_lookup_insert_eq by (apply lookup_lt_is_Some; eauto).
    rewrite Hx. cbn -[Nat.leb].
    destruct (Nat.leb_spec (S k) k); [lia | ].
    destruct (Nat.leb_spec k k); [reflexivity | lia].
  - rewrite list_lookup_insert_ne by exact Hne.
    destruct (b !! j); [cbn -[Nat.leb] | reflexivity].
    destruct (Nat.leb_spec (S k) j), (Nat.leb_spec k j); try reflexivity; lia.
Qed.

Lemma imap_from_end (F : nat -> Z -> Z) (b : list Z) :
  imap_from (length b) F b = b.
Proof.
  apply list_eq. intros j. unfold imap_from. rewrite list_lookup_imap.
  destruct (b !! j) eqn:Hj; [cbn -[Nat.leb] | reflexivity].
  assert (j < length b)%nat by (apply lookup_lt_is_Some; eauto).
  destruct (Nat.leb_spec (length b) j); [lia | reflexivity].
Qed.

(** A loop over [range(8)] whose body rewrites the row it is at: [F k] is
    what it does to row [k], and [loc k] its local variables when it
    gets there. *)
Lemma for_rows_from {L : Type} (loc : nat -> L) (F : nat -> Z -> Z)
    (body : Z -> L -> M L) :
  (forall k s x, (k < 8)%nat -> wf s -> buf s !! k = Some x ->
     is_byte (F k x) = true /\
     body (Z.of_nat k) (loc k) s =
       (Ok (loc (S k)), with_buf (<[k := F k x]> (buf s)) s)) ->
  forall n k s, (k + n = 8)%nat -> wf s ->
    for_in (map Z.of_nat (seq k n)) body (loc k) s =
      (Ok (loc 8%nat), with_buf (imap_from k F (buf s)) s).
Proof.
  intros Hbody. induction n as [ | n IH]; intros k s Hk Hwf.
  - assert (k = length (buf s)) as -> by (destruct Hwf; lia).
    simpl. rewrite imap_from_end, with_buf_buf.
    destruct Hwf as [-> _]. reflexivity.
  - destruct (wf_lookup s k Hwf) as (x & Hx & Hbx); [lia | ].
    destruct (Hbody k s x) as [HF Hrun]; [lia | assumption | assumption | ].
    simpl. rewrite (bind_Ok _ _ _ _ _ Hrun).
    rewrite (IH (S k)); [ | lia | now apply wf_insert].
    simpl. rewrite imap_from_insert by exact Hx. reflexivity.
Qed.

Lemma for_rows {L : Type} (loc : nat -> L) (F : nat -> Z -> Z)
    (body : Z -> L -> M L) (s : Matrix8x8) :
  wf s ->
  (forall k s x, (k < 8)%nat -> wf s -> buf s !! k = Some x ->
     is_byte (F k x) = true /\
     body (Z.of_nat k) (loc k) s =
       (Ok (loc (S k)), with_buf (<[k := F k x]> (buf s)) s)) ->
  for_in (range 8) body (loc 0%nat) s =
    (Ok (loc 8%nat), with_buf (imap F (buf s)) s).
Proof.
  intros Hwf Hbody.
  exact (for_rows_from loc F body Hbody 8%nat 0%nat s eq_refl Hwf).
Qed.

(** * Masks and bits of a row *)

(** The mask [0x80 >> c] has the one bit [7 - c], and none when [c > 7]. *)
Lemma mask_testbit (c i : Z) :
  0 <= c -> 0 <= i -> Z.testbit (Z.shiftr 0x80 c) i = (i + c =? 7).
Proof.
  intros Hc Hi. rewrite Z.shiftr_spec by lia. change 0x80 with (2 ^ 7).
  rewrite Z.pow2_bits_eqb by lia. apply Z.eqb_sym.
Qed.

Lemma mask_pow2 (c : Z) : 0 <= c <= 7 -> Z.shiftr 0x80 c = 2 ^ (7 - c).
Proof.
  intros Hc. change 0x80 with (2 ^ 7). rewrite Z.shiftr_div_pow2 by lia.
  symmetry. apply Z.pow_sub_r; lia.
Qed.

Lemma is_byte_bits (y : Z) :
  is_byte y = true <->
  forall i, 0 <= i -> Z.testbit y i = Z.testbit y i && (i <? 8).
Proof.
  rewrite is_byte_land. change 0xFF with (Z.ones 8). split; intros H.
  - intros i Hi. rewrite <- H at 1.
    now rewrite Z.land_spec, Z.testbit_ones_nonneg by lia.
  - apply Z.bits_inj'. intros i Hi.
    rewrite Z.land_spec, Z.testbit_ones_nonneg by lia.
    symmetry. now apply H.
Qed.

Lemma is_byte_mask (c : Z) : 0 <= c -> is_byte (Z.shiftr 0x80 c) = true.
Proof.
  intros Hc. apply is_byte_bits. intros i Hi. rewrite mask_testbit by lia.
  destruct (Z.eqb_spec (i + c) 7), (Z.ltb_spec i 8); try reflexivity; lia.
Qed.

Lemma is_byte_lor (x y : Z) :
  is_byte x = true -> is_byte y = true -> is_byte (Z.lor x y) = true.
Proof.
  rewrite !is_byte_bits. intros Hx Hy i Hi.
  rewrite Z.lor_spec, (Hx i Hi), (Hy i Hi).
  destruct (Z.testbit x i), (Z.testbit y i), (i <? 8); reflexivity.
Qed.

Lemma is_byte_land_l (x y : Z) :
  is_byte x = true -> is_byte (Z.land x y) = true.
Proof.
  rewrite !is_byte_bits. intros Hx i Hi.
  rewrite Z.land_spec, (Hx i Hi).
  destruct (Z.testbit x i), (Z.testbit y i), (i <? 8); reflexivity.
Qed.

(** [_clear_column] clears the bit of the mask in a row and keeps the
    others, through its test and its exclusive or. *)
Lemma clear_bit_testbit (c x i : Z) :
  0 <= c -> 0 <= i ->
  Z.testbit (clear_bit (Z.shiftr 0x80 c) x) i =
  Z.testbit x i && negb (i + c =? 7).
Proof.
  intros Hc Hi. unfold clear_bit, truthy.
  destruct (Z.eqb_spec (Z.land x (Z.shiftr 0x80 c)) 0) as [E | E]; simpl.
  - destruct (Z.eqb_spec (i + c) 7) as [Hic | Hic]; simpl.
    + assert (Hb : Z.testbit (Z.land x (Z.shiftr 0x80 c)) i = false)
        by (rewrite E; apply Z.bits_0).
      rewrite Z.land_spec, mask_testbit in Hb by lia.
      rewrite (proj2 (Z.eqb_eq _ _) Hic), andb_true_r in Hb.
      rewrite Hb. reflexivity.
    + now rewrite andb_true_r.
  - rewrite Z.lxor_spec, mask_testbit by lia.
    destruct (Z.eqb_spec (i + c) 7) as [Hic | Hic]; simpl.
    + destruct (Z.testbit x i) eqn:Hxi; [reflexivity | ].
      exfalso. apply E. apply Z.bits_inj'. intros j Hj.
      rewrite Z.land_spec, mask_testbit, Z.bits_0 by lia.
      destruct (Z.eqb_spec (j + c) 7) as [Hjc | Hjc].
      * replace j with i by lia. now rewrite Hxi.
      * apply andb_false_r.
    + now rewrite xorb_false_r, andb_true_r.
Qed.

Lemma is_byte_clear_bit (c x : Z) :
  0 <= c -> is_byte x = true ->
  is_byte (clear_bit (Z.shiftr 0x80 c) x) = true.
Proof.
  intros Hc. rewrite !is_byte_bits. intros Hx i Hi.
  rewrite clear_bit_testbit, (Hx i Hi) by lia.
  destruct (Z.testbit x i), (i <? 8), (i + c =? 7); reflexivity.
Qed.

(** What [_set_column] ors into row [k] is the bit of the column, when the
    byte has the bit of the row: the shift by [column - row], to the right
    or to the left, moves the one to the other. *)
Lemma column_bit_row (c B : Z) (k : nat) :
  0 <= c -> (k < 8)%nat ->
  column_bit c B (Z.of_nat k) (Z.shiftr 0x80 (Z.of_nat k)) =
  if Z.testbit B (7 - Z.of_nat k) then Z.shiftr 0x80 c else 0.
Proof.
  intros Hc Hk. unfold column_bit. apply Z.bits_inj'. intros i Hi.
  assert (Hrhs : Z.testbit (if Z.testbit B (7 - Z.of_nat k)
                            then Z.shiftr 0x80 c else 0) i =
                 Z.testbit B (7 - Z.of_nat k) && (i + c =? 7)).
  { destruct (Z.testbit B (7 - Z.of_nat k)); simpl;
      [now apply mask_testbit | apply Z.bits_0]. }
  rewrite Hrhs. clear Hrhs.
  destruct (Z.geb_spec (c - Z.of_nat k) 0) as [Hs | Hs].
  - rewrite Z.shiftr_spec, Z.land_spec, mask_testbit by lia.
    destruct (Z.eqb_spec (i + (c - Z.of_nat k) + Z.of_nat k) 7),
             (Z.eqb_spec (i + c) 7); try lia;
      try (now rewrite !andb_false_r).
    f_equal. f_equal. lia.
  - rewrite Z.abs_neq by lia. rewrite Z.shiftl_spec by lia.
    destruct (Z.lt_ge_cases (i - - (c - Z.of_nat k)) 0) as [Hn | Hn].
    + rewrite Z.testbit_neg_r by lia.
      destruct (Z.eqb_spec (i + c) 7); [lia | now rewrite andb_false_r].
    + rewrite Z.land_spec, mask_testbit by lia.
      destruct (Z.eqb_spec (i - - (c - Z.of_nat k) + Z.of_nat k) 7),
               (Z.eqb_spec (i + c) 7); try lia;
        try (now rewrite !andb_false_r).
      f_equal. f_equal. lia.
Qed.

Lemma is_byte_column_bit (c B : Z) (k : nat) :
  0 <= c -> (k < 8)%nat ->
  is_byte (column_bit c B (Z.of_nat k) (Z.shiftr 0x80 (Z.of_nat k))) = true.
Proof.
  intros Hc Hk. rewrite column_bit_row by assumption.
  destruct (Z.testbit B _); [now apply is_byte_mask | reflexivity].
Qed.

Lemma wf_imap (F : nat -> Z -> Z) (s : Matrix8x8) :
  wf s ->
  (forall k x, (k < 8)%nat -> is_byte x = true -> is_byte (F k x) = true) ->
  wf (with_buf (imap F (buf s)) s).
Proof.
  intros [Hlen Hb] HF. split; simpl.
  - now rewrite length_imap.
  - apply bytes_Forall, Forall_lookup. intros k y Hy.
    rewrite list_lookup_imap in Hy.
    destruct (buf s !! k) as [x | ] eqn:Hx; [ | discriminate].
    injection Hy as <-. apply HF.
    + rewrite <- Hlen. apply lookup_lt_is_Some. eauto.
    + apply bytes_Forall in Hb. rewrite Forall_forall in Hb.
      apply Hb, list_elem_of_lookup. eauto.
Qed.

(** * The column methods on the framebuffer *)

Lemma _clear_column_run (c : Z) (s : Matrix8x8) :
  wf s -> 0 <= c ->
  _clear_column c s =
    (Ok tt,
     with_buf (imap (fun _ x => clear_bit (Z.shiftr 0x80 c) x) (buf s)) s).
Proof.
  intros Hwf Hc. unfold _clear_column, py_rshift.
  destruct (Z.ltb_spec c 0); [lia | ].
  rewrite (bind_Ok _ _ s (Z.shiftr 0x80 c) s) by reflexivity.
  apply (for_rows (fun _ => tt)); [exact Hwf | ].
  intros k s' x Hk Hwf' Hx.
  destruct (wf_lookup s' k Hwf' Hk) as (x' & Hx' & Hbx).
  assert (x' = x) as -> by congruence.
  split; [now apply is_byte_clear_bit | ].
  rewrite (bind_Ok _ _ _ _ _ (buf_getitem_nat _ _ _ Hx)).
  unfold clear_bit. destruct (truthy (Z.land x (Z.shiftr 0x80 c))) eqn:Ht.
  - rewrite (bind_Ok _ _ _ _ _ (buf_getitem_nat _ _ _ Hx)).
    apply buf_setitem_nat; [destruct Hwf'; lia | ].
    pose proof (is_byte_clear_bit c x Hc Hbx) as Hcb.
    unfold clear_bit in Hcb. now rewrite Ht in Hcb.
  - unfold ret. now rewrite list_insert_id, with_buf_buf.
Qed.

(** The second loop of [_set_column], on a framebuffer whose column has
    been cleared or not. *)
Lemma _set_column_loop (c B : Z) (s : Matrix8x8) :
  wf s -> 0 <= c ->
  for_in (range 8)
    (fun row mask =>
       let shift := c - row in
       (if shift >=? 0
        then
          x <- buf_getitem row ;;
          v <- lift (py_rshift (Z.land B mask) shift) ;;
          buf_setitem row (Z.lor x v)
        else
          x <- buf_getitem row ;;
          v <- lift (py_lshift (Z.land B mask) (Z.abs shift)) ;;
          buf_setitem row (Z.lor x v)) ;;
       lift (py_rshift mask 1))
    0x80 s =
  (Ok (Z.shiftr 0x80 8),
   with_buf
     (imap (fun k x => Z.lor x (column_bit c B (Z.of_nat k)
                                  (Z.shiftr 0x80 (Z.of_nat k))))
        (buf s)) s).
Proof.
  intros Hwf Hc.
  apply (for_rows (fun k => Z.shiftr 0x80 (Z.of_nat k))
           (fun k x => Z.lor x (column_bit c B (Z.of_nat k)
                                  (Z.shiftr 0x80 (Z.of_nat k)))));
    [exact Hwf | ].
  intros k s' x Hk Hwf' Hx.
  destruct (wf_lookup s' k Hwf' Hk) as (x' & Hx' & Hbx).
  assert (x' = x) as -> by congruence.
  assert (Hv : is_byte (Z.lor x (column_bit c B (Z.of_nat k)
                                   (Z.shiftr 0x80 (Z.of_nat k)))) = true)
    by (apply is_byte_lor; [exact Hbx | now apply is_byte_column_bit]).
  split; [exact Hv | ].
  assert (Hnext : forall t,
             lift (py_rshift (Z.shiftr 0x80 (Z.of_nat k)) 1) t =
             (Ok (Z.shiftr 0x80 (Z.of_nat (S k))), t)).
  { intros t. unfold lift, py_rshift. simpl (1 <? 0).
    rewrite Z.shiftr_shiftr by lia. now rewrite Nat2Z.inj_succ. }
  unfold column_bit in *. cbv zeta.
  destruct (Z.geb_spec (c - Z.of_nat k) 0) as [Hs | Hs].
  - rewrite (bind_Ok _ _ s' tt
               (with_buf (<[k := Z.lor x (Z.shiftr
                   (Z.land B (Z.shiftr 0x80 (Z.of_nat k)))
                   (c - Z.of_nat k))]> (buf s')) s')); [apply Hnext | ].
    rewrite (bind_Ok _ _ _ _ _ (buf_getitem_nat _ _ _ Hx)).
    unfold py_rshift. destruct (Z.ltb_spec (c - Z.of_nat k) 0); [lia | ].
    rewrite (bind_Ok _ _ s' _ s') by reflexivity.
    apply buf_setitem_nat; [destruct Hwf'; lia | exact Hv].
  - rewrite (bind_Ok _ _ s' tt
               (with_buf (<[k := Z.lor x (Z.shiftl
                   (Z.land B (Z.shiftr 0x80 (Z.of_nat k)))
                   (Z.abs (c - Z.of_nat k)))]> (buf s')) s')); [apply Hnext | ].
    rewrite (bind_Ok _ _ _ _ _ (buf_getitem_nat _ _ _ Hx)).
    unfold py_lshift.
    destruct (Z.ltb_spec (Z.abs (c - Z.of_nat k)) 0); [lia | ].
    rewrite (bind_Ok _ _ s' _ s') by reflexivity.
    apply buf_setitem_nat; [destruct Hwf'; lia | exact Hv].
Qed.

Lemma _set_column_run (c B : Z) (s : Matrix8x8) :
  wf s -> 0 <= c ->
  _set_column c B s =
    (Ok tt,
     with_buf
       (imap (fun k x =>
                Z.lor (clear_bit (Z.shiftr 0x80 c) x)
                      (if Z.testbit B (7 - Z.of_nat k)
                       then Z.shiftr 0x80 c else 0))
          (buf s)) s).
Proof.
  intros Hwf Hc. unfold _set_column.
  rewrite (bind_Ok _ _ _ _ _ (_clear_column_run c s Hwf Hc)).
  set (s1 := with_buf _ s).
  assert (Hwf1 : wf s1).
  { apply wf_imap; [exact Hwf | ]. intros k x _ Hx.
    now apply is_byte_clear_bit. }
  destruct (Z.eqb_spec B 0) as [-> | HB].
  - unfold ret, s1. do 2 f_equal. apply list_eq. intros k.
    rewrite !list_lookup_imap. destruct (buf s !! k); [simpl | reflexivity].
    now rewrite Z.bits_0, Z.lor_0_r.
  - rewrite (bind_Ok _ _ _ _ _ (_set_column_loop c B s1 Hwf1 Hc)).
    unfold ret, s1. rewrite with_buf_twice. do 2 f_equal. simpl.
    apply list_eq. intros k. rewrite !list_lookup_imap.
    destruct (buf s !! k) eqn:Hk; [simpl | reflexivity].
    rewrite column_bit_row; [reflexivity | exact Hc | ].
    destruct Hwf as [<- _]. apply lookup_lt_is_Some. eauto.
Qed.

(** * Indices, negative ones included *)

Lemma norm_index_lt (len : nat) (i : Z) (k : nat) :
  norm_index len i = Some k -> (k < len)%nat.
Proof.
  unfold norm_index.
  destruct (Z.leb_spec 0 (if i <? 0 then i + Z.of_nat len else i));
    [ | discriminate].
  destruct (Z.ltb_spec (if i <? 0 then i + Z.of_nat len else i) (Z.of_nat len));
    [ | discriminate].
  simpl. intros [= <-]. lia.
Qed.

Lemma norm_index_cases (len : nat) (i : Z) :
  (- Z.of_nat len <= i < Z.of_nat len /\ exists k, norm_index len i = Some k) \/
  ((i < - Z.of_nat len \/ Z.of_nat len <= i) /\ norm_index len i = None).
Proof.
  destruct (Z.lt_ge_cases i (- Z.of_nat len)).
  { right. split; [lia | apply norm_index_out; lia]. }
  destruct (Z.lt_ge_cases i (Z.of_nat len)).
  2: { right. split; [lia | apply norm_index_out; lia]. }
  left. split; [lia | ]. destruct (Z.lt_ge_cases i 0).
  - eexists. apply norm_index_neg. lia.
  - exists (Z.to_nat i). rewrite <- (Z2Nat.id i) at 1 by lia.
    apply norm_index_nat. lia.
Qed.

Lemma getitem_norm {A : Type} (l : list A) (i : Z) (k : nat) (x : A) :
  norm_index (length l) i = Some k -> l !! k = Some x -> getitem l i = Ok x.
Proof. intros Hi Hx. unfold getitem. now rewrite Hi, Hx. Qed.

Lemma setitem_norm (l : list Z) (i v : Z) (k : nat) :
  norm_index (length l) i = Some k -> is_byte v = true ->
  bytearray_setitem l i v = Ok (<[k := v]> l).
Proof. intros Hi Hv. unfold bytearray_setitem. now rewrite Hv, Hi. Qed.

Lemma row_addr_lookup (k : nat) :
  (k < 8)%nat -> row_addr !! k = Some (2 * Z.of_nat k).
Proof.
  intros Hk. do 8 (destruct k as [ | k]; [reflexivity | ]). lia.
Qed.

Lemma length8 {A : Type} (l : list A) :
  length l = 8%nat ->
  exists x0 x1 x2 x3 x4 x5 x6 x7, l = [x0; x1; x2; x3; x4; x5; x6; x7].
Proof.
  intros H. do 8 (destruct l as [ | ? l]; [discriminate | ]).
  destruct l; [ | discriminate]. repeat eexists.
Qed.

(** * The transport methods *)

Lemma _send_buf_step : _send_buf =
  (b <- gets buf ;;
   r <- for_in b send_step (bytearray_zeros 16, 1) ;;
   _send (Buf (fst r))).
Proof. reflexivity. Qed.

Lemma send_loop_run (b : list Z) :
  forall (d : list Z) (i : nat) (s : Matrix8x8),
    length d = 16%nat -> (i + 2 * length b <= 17)%nat ->
    for_in b send_step (d, Z.of_nat i) s =
      (Ok (fst (foldl payload_step (d, i) b),
           Z.of_nat (snd (foldl payload_step (d, i) b))), s).
Proof.
  induction b as [ | byte b IH]; intros d i s Hd Hi; [reflexivity | ].
  cbn [for_in foldl length] in *. unfold send_step at 1, payload_step at 1 3.
  unfold bind at 1. unfold bind at 1, lift, ret.
  rewrite setitem_nat by (try apply rotate_right_byte; lia).
  replace (Z.of_nat i + 2) with (Z.of_nat (i + 2)) by lia.
  apply IH; [now rewrite length_insert | lia].
Qed.

Lemma send_loop_raise (b : list Z) :
  forall (d : list Z) (i : nat) (s : Matrix8x8),
    length d = 16%nat -> (i <= 17)%nat -> (17 < i + 2 * length b)%nat ->
    for_in b send_step (d, Z.of_nat i) s = (Raise IndexError, s).
Proof.
  induction b as [ | byte b IH]; intros d i s Hd Hi Hlen;
    [simpl in Hlen; lia | ].
  cbn [for_in length] in *. unfold send_step at 1.
  unfold bind at 1. unfold bind at 1, lift, ret.
  destruct (Nat.lt_ge_cases i 16) as [Hlt | Hge].
  - rewrite setitem_nat by (try apply rotate_right_byte; lia).
    replace (Z.of_nat i + 2) with (Z.of_nat (i + 2)) by lia.
    apply IH; [now rewrite length_insert | lia | lia].
  - rewrite setitem_out by (try apply rotate_right_byte; lia). reflexivity.
Qed.

Lemma _send_buf_run (s : Matrix8x8) :
  (length (buf s) <= 8)%nat ->
  _send_buf s =
    (Ok tt, with_i2c (i2c s ++ [(Buf (payload (buf s)), addr s)]) s).
Proof.
  intros Hlen. rewrite _send_buf_step.
  rewrite (bind_Ok _ _ s (buf s) s) by reflexivity.
  rewrite (bind_Ok _ _ _ _ _
             (send_loop_run (buf s) (bytearray_zeros 16) 1 s eq_refl
                ltac:(lia))).
  reflexivity.
Qed.

Lemma _send_buf_raise (s : Matrix8x8) :
  (8 < length (buf s))%nat -> _send_buf s = (Raise IndexError, s).
Proof.
  intros Hlen. rewrite _send_buf_step.
  rewrite (bind_Ok _ _ s (buf s) s) by reflexivity.
  apply bind_Raise.
  apply (send_loop_raise (buf s) (bytearray_zeros 16) 1 s eq_refl); lia.
Qed.

(** The buffer built from 8 rows: the rotated rows at the odd indices, in
    order from index 1, and 0 at the even ones. *)
Lemma payload_rows (b : list Z) :
  length b = 8%nat ->
  length (payload b) = 16%nat /\
  forall k x, b !! k = Some x ->
    payload b !! (2 * k)%nat = Some 0 /\
    payload b !! (2 * k + 1)%nat = Some (rotate_right x).
Proof.
  intros Hlen.
  destruct (length8 b Hlen) as (x0 & x1 & x2 & x3 & x4 & x5 & x6 & x7 & ->).
  split; [reflexivity | ]. intros k x Hx.
  do 8 (destruct k as [ | k]; [injection Hx as <-; split; reflexivity | ]).
  discriminate.
Qed.

(** The same buffer read as the chip does: the start address [0x00], then
    the registers from [0x00] on, where the register [row_addr[k]] that
    [_send_row] writes for row [k] holds the rotated row [k]. *)
Lemma payload_registers (b : list Z) (k : nat) (x a : Z) :
  length b = 8%nat -> b !! k = Some x -> row_addr !! k = Some a ->
  payload b !! 0%nat = Some 0x00 /\
  payload b !! (1 + Z.to_nat a)%nat = Some (rotate_right x).
Proof.
  intros Hlen Hx Ha.
  destruct (length8 b Hlen) as (x0 & x1 & x2 & x3 & x4 & x5 & x6 & x7 & ->).
  split; [reflexivity | ].
  do 8 (destruct k as [ | k];
        [injection Hx as <-; injection Ha as <-; reflexivity | ]).
  discriminate.
Qed.

Lemma _send_row_run (s : Matrix8x8) (row : Z) (k : nat) (x : Z) :
  length (buf s) = 8%nat -> norm_index 8 row = Some k ->
  buf s !! k = Some x ->
  _send_row row s =
    (Ok tt,
     with_i2c (i2c s ++ [(Buf [2 * Z.of_nat k; rotate_right x], addr s)]) s).
Proof.
  intros Hlen Hrow Hx. unfold _send_row.
  pose proof (norm_index_lt _ _ _ Hrow) as Hk.
  rewrite (bind_Ok _ _ s (2 * Z.of_nat k) s).
  2: { unfold lift. f_equal.
       apply (getitem_norm row_addr row k); [exact Hrow | ].
       now apply row_addr_lookup. }
  rewrite (bind_Ok _ _ s x s).
  2: { unfold buf_getitem, bind, gets, lift. f_equal.
       apply (getitem_norm (buf s) row k); [now rewrite Hlen | exact Hx]. }
  rewrite (bind_Ok _ _ s [2 * Z.of_nat k; rotate_right x] s); [reflexivity | ].
  unfold lift, bytes_of. cbn [forallb].
  rewrite rotate_right_byte.
  replace (is_byte (2 * Z.of_nat k)) with true; [reflexivity | ].
  symmetry. apply is_byte_range. lia.
Qed.

Lemma buf_getitem_norm (s : Matrix8x8) (row : Z) (k : nat) (x : Z) :
  norm_index (length (buf s)) row = Some k -> buf s !! k = Some x ->
  buf_getitem row s = (Ok x, s).
Proof.
  intros Hrow Hx. unfold buf_getitem, bind, gets, lift.
  now rewrite (getitem_norm _ _ _ _ Hrow Hx).
Qed.

Lemma buf_setitem_norm (s : Matrix8x8) (row v : Z) (k : nat) :
  norm_index (length (buf s)) row = Some k -> is_byte v = true ->
  buf_setitem row v s = (Ok tt, with_buf (<[k := v]> (buf s)) s).
Proof.
  intros Hrow Hv. unfold buf_setitem, bind, gets, lift, modify.
  now rewrite (setitem_norm _ _ _ _ Hrow Hv).
Qed.

Lemma buf_setitem_out (s : Matrix8x8) (row v : Z) :
  is_byte v = true ->
  row < - Z.of_nat (length (buf s)) \/ Z.of_nat (length (buf s)) <= row ->
  buf_setitem row v s = (Raise IndexError, s).
Proof.
  intros Hv Hrow. unfold buf_setitem, bind, gets, lift.
  now rewrite setitem_out.
Qed.

Lemma buf_setitem_not_byte (s : Matrix8x8) (row v : Z) :
  is_byte v = false -> buf_setitem row v s = (Raise ValueError, s).
Proof.
  intros Hv. unfold buf_setitem, bind, gets, lift.
  now rewrite setitem_not_byte.
Qed.

(** * The methods on a live instance *)

Lemma clear_run (s : Matrix8x8) :
  wf s ->
  clear s =
    (Ok tt,
     with_i2c (i2c s ++ [(Buf (payload (bytearray_zeros 8)), addr s)])
       (with_buf (bytearray_zeros 8) s)).
Proof.
  intros Hwf. unfold clear.
  rewrite (bind_Ok _ _ s tt (with_buf (bytearray_zeros 8) s)).
  - now rewrite _send_buf_run by (simpl; lia).
  - rewrite (for_rows (fun _ => tt) (fun _ _ => 0) _ s Hwf).
    + destruct Hwf as [Hlen _].
      destruct (length8 _ Hlen) as (? & ? & ? & ? & ? & ? & ? & ? & ->).
      reflexivity.
    + intros k s' x Hk Hwf' Hx. split; [reflexivity | ].
      apply buf_setitem_nat; [destruct Hwf'; lia | reflexivity].
Qed.

Lemma set_run_le (bitmap : list Z) (s : Matrix8x8) :
  forallb is_byte bitmap = true -> (length bitmap <= 8)%nat ->
  set bitmap s =
    (Ok tt,
     with_i2c (i2c s ++ [(Buf (payload bitmap), addr s)]) (with_buf bitmap s)).
Proof.
  intros Hb Hlen. unfold set, bytes_of. rewrite Hb.
  rewrite (bind_Ok _ _ s bitmap s) by reflexivity.
  rewrite (bind_Ok _ _ s tt (with_buf bitmap s)) by reflexivity.
  now rewrite _send_buf_run.
Qed.

Lemma set_run_gt (bitmap : list Z) (s : Matrix8x8) :
  forallb is_byte bitmap = true -> (8 < length bitmap)%nat ->
  set bitmap s = (Raise IndexError, with_buf bitmap s).
Proof.
  intros Hb Hlen. unfold set, bytes_of. rewrite Hb.
  rewrite (bind_Ok _ _ s bitmap s) by reflexivity.
  rewrite (bind_Ok _ _ s tt (with_buf bitmap s)) by reflexivity.
  now rewrite _send_buf_raise.
Qed.

Lemma set_column_run (c B : Z) (s : Matrix8x8) :
  wf s -> 0 <= c ->
  let b' := imap (fun k x =>
                    Z.lor (clear_bit (Z.shiftr 0x80 c) x)
                          (if Z.testbit B (7 - Z.of_nat k)
                           then Z.shiftr 0x80 c else 0)) (buf s) in
  set_column c B s =
    (Ok tt, with_i2c (i2c s ++ [(Buf (payload b'), addr s)]) (with_buf b' s)).
Proof.
  intros Hwf Hc b'. unfold set_column.
  rewrite (bind_Ok _ _ _ _ _ (_set_column_run c B s Hwf Hc)).
  fold b'. rewrite _send_buf_run; [reflexivity | ].
  simpl. unfold b'. rewrite length_imap. destruct Hwf. lia.
Qed.

Lemma clear_column_run (c : Z) (s : Matrix8x8) :
  wf s -> 0 <= c ->
  let b' := imap (fun _ x => clear_bit (Z.shiftr 0x80 c) x) (buf s) in
  clear_column c s =
    (Ok tt, with_i2c (i2c s ++ [(Buf (payload b'), addr s)]) (with_buf b' s)).
Proof.
  intros Hwf Hc b'. unfold clear_column.
  rewrite (bind_Ok _ _ _ _ _ (_clear_column_run c s Hwf Hc)).
  fold b'. rewrite _send_buf_run; [reflexivity | ].
  simpl. unfold b'. rewrite length_imap. destruct Hwf. lia.
Qed.

Lemma set_row_run (row byte : Z) (k : nat) (s : Matrix8x8) :
  length (buf s) = 8%nat -> norm_index 8 row = Some k ->
  is_byte byte = true ->
  set_row row byte s =
    (Ok tt,
     with_i2c (i2c s ++ [(Buf [2 * Z.of_nat k; rotate_right byte], addr s)])
       (with_buf (<[k := byte]> (buf s)) s)).
Proof.
  intros Hlen Hrow Hb. unfold set_row.
  pose proof (norm_index_lt _ _ _ Hrow) as Hk.
  rewrite (bind_Ok _ _ _ _ _ (buf_setitem_norm s row byte k
             ltac:(now rewrite Hlen) Hb)).
  erewrite _send_row_run;
    [reflexivity
    | simpl; now rewrite length_insert
    | exact Hrow
    | simpl; apply list_lookup_insert_eq; lia].
Qed.

Lemma set_row_out (row byte : Z) (s : Matrix8x8) :
  length (buf s) = 8%nat -> is_byte byte = true -> row < -8 \/ 7 < row ->
  set_row row byte s = (Raise IndexError, s).
Proof.
  intros Hlen Hb Hrow. unfold set_row. apply bind_Raise.
  apply buf_setitem_out; [exact Hb | ]. rewrite Hlen. lia.
Qed.

Lemma set_row_not_byte (row byte : Z) (s : Matrix8x8) :
  is_byte byte = false -> set_row row byte s = (Raise ValueError, s).
Proof.
  intros Hb. unfold set_row. apply bind_Raise.
  now apply buf_setitem_not_byte.
Qed.

Lemma set_pixel_run (row c : Z) (k : nat) (x : Z) (s : Matrix8x8) :
  wf s -> norm_index 8 row = Some k -> 0 <= c -> buf s !! k = Some x ->
  let y := Z.lor x (Z.shiftr 0x80 c) in
  set_pixel row c s =
    (Ok tt,
     with_i2c (i2c s ++ [(Buf [2 * Z.of_nat k; rotate_right y], addr s)])
       (with_buf (<[k := y]> (buf s)) s)).
Proof.
  intros Hwf Hrow Hc Hx y. unfold set_pixel, py_rshift.
  destruct (Z.ltb_spec c 0); [lia | ].
  pose proof (norm_index_lt _ _ _ Hrow) as Hk.
  destruct (wf_lookup s k Hwf Hk) as (x' & Hx' & Hbx).
  assert (x' = x) as -> by congruence.
  destruct Hwf as [Hlen Hb].
  rewrite (bind_Ok _ _ _ _ _ (buf_getitem_norm s row k x
             ltac:(now rewrite Hlen) Hx)).
  rewrite (bind_Ok _ _ s (Z.shiftr 0x80 c) s) by reflexivity.
  fold y.
  rewrite (bind_Ok _ _ _ _ _ (buf_setitem_norm s row y k
             ltac:(now rewrite Hlen)
             (is_byte_lor _ _ Hbx (is_byte_mask c Hc)))).
  erewrite _send_row_run;
    [reflexivity
    | simpl; now rewrite length_insert
    | exact Hrow
    | simpl; apply list_lookup_insert_eq; lia].
Qed.

Lemma clear_pixel_run (row c : Z) (k : nat) (x : Z) (s : Matrix8x8) :
  wf s -> norm_index 8 row = Some k -> 0 <= c -> buf s !! k = Some x ->
  let y := Z.land x (Z.lnot (Z.shiftr 0x80 c)) in
  clear_pixel row c s =
    (Ok tt,
     with_i2c (i2c s ++ [(Buf [2 * Z.of_nat k; rotate_right y], addr s)])
       (with_buf (<[k := y]> (buf s)) s)).
Proof.
  intros Hwf Hrow Hc Hx y. unfold clear_pixel, py_rshift.
  destruct (Z.ltb_spec c 0); [lia | ].
  pose proof (norm_index_lt _ _ _ Hrow) as Hk.
  destruct (wf_lookup s k Hwf Hk) as (x' & Hx' & Hbx).
  assert (x' = x) as -> by congruence.
  destruct Hwf as [Hlen Hb].
  rewrite (bind_Ok _ _ _ _ _ (buf_getitem_norm s row k x
             ltac:(now rewrite Hlen) Hx)).
  rewrite (bind_Ok _ _ s (Z.shiftr 0x80 c) s) by reflexivity.
  fold y.
  rewrite (bind_Ok _ _ _ _ _ (buf_setitem_norm s row y k
             ltac:(now rewrite Hlen) (is_byte_land_l _ _ Hbx))).
  erewrite _send_row_run;
    [reflexivity
    | simpl; now rewrite length_insert
    | exact Hrow
    | simpl; apply list_lookup_insert_eq; lia].
Qed.

Lemma on_run (s : Matrix8x8) :
  on s =
    (Ok tt,
     with_i2c (i2c s ++ [(Int (on_command (_blinking s)), addr s)])
       (with_is_on true s)).
Proof. reflexivity. Qed.

Lemma off_run (s : Matrix8x8) :
  off s = (Ok tt, with_i2c (i2c s ++ [(Int 0x80, addr s)]) (with_is_on false s)).
Proof. reflexivity. Qed.

Lemma set_brightness_run (value : Z) (s : Matrix8x8) :
  set_brightness value s =
    (Ok tt, with_i2c (i2c s ++ [(Int (Z.lor 0xE0 value), addr s)]) s).
Proof. reflexivity. Qed.

Lemma set_blinking_run (mode : Z) (s : Matrix8x8) :
  set_blinking mode s =
    if is_on s
    then (Ok tt,
          with_i2c (i2c s ++ [(Int (on_command mode), addr s)])
            (with_blinking mode s))
    else (Ok tt, with_blinking mode s).
Proof.
  unfold set_blinking, bind, modify, gets. simpl.
  destruct (is_on s) eqn:Hon; [ | reflexivity].
  rewrite on_run. unfold with_is_on, with_i2c, with_blinking. simpl.
  now rewrite Hon.
Qed.

Lemma wf_display0 : wf display0.
Proof. split; reflexivity. Qed.

(** * What every method preserves *)

Section Stable.
Variable P : Matrix8x8 -> Prop.

Lemma stable_ret {A : Type} (a : A) : stable P (ret a).
Proof. intros s Hs. exact Hs. Qed.

Lemma stable_lift {A : Type} (r : result A) : stable P (lift r).
Proof. intros s Hs. exact Hs. Qed.

Lemma stable_gets {A : Type} (f : Matrix8x8 -> A) : stable P (gets f).
Proof. intros s Hs. exact Hs. Qed.

Lemma stable_modify (f : Matrix8x8 -> Matrix8x8) :
  (forall s, P s -> P (f s)) -> stable P (modify f).
Proof. intros Hf s Hs. now apply Hf. Qed.

Lemma stable_bind {A B : Type} (m : M A) (k : A -> M B) :
  stable P m -> (forall a, stable P (k a)) -> stable P (bind m k).
Proof.
  intros Hm Hk s Hs. unfold bind. specialize (Hm s Hs).
  destruct (m s) as [[a | e] s1]; simpl in *; [now apply Hk | exact Hm].
Qed.

Lemma stable_if {A : Type} (b : bool) (m1 m2 : M A) :
  stable P m1 -> stable P m2 -> stable P (if b then m1 else m2).
Proof. now destruct b. Qed.

Lemma stable_for_in {A L : Type} (xs : list A) (body : A -> L -> M L) :
  (forall x l, stable P (body x l)) -> forall l, stable P (for_in xs body l).
Proof.
  intros Hbody. induction xs as [ | x xs IH]; intros l; simpl.
  - apply stable_ret.
  - apply stable_bind; [apply Hbody | exact IH].
Qed.

(** The writes of the methods, [set] apart, which replaces the whole
    framebuffer. *)
Hypothesis Hsetitem : forall row v, stable P (buf_setitem row v).
Hypothesis Hsend : forall d, stable P (_send d).
Hypothesis His_on : forall v, stable P (modify (with_is_on v)).
Hypothesis Hblinking : forall v, stable P (modify (with_blinking v)).

Lemma stable_buf_getitem (row : Z) : stable P (buf_getitem row).
Proof.
  apply stable_bind; [apply stable_gets | intros; apply stable_lift].
Qed.

Ltac stable_step :=
  first [ apply stable_buf_getitem | apply Hsetitem | apply Hsend
        | apply His_on | apply Hblinking
        | apply stable_ret | apply stable_lift | apply stable_gets
        | apply stable_if | apply stable_bind | intros ? ].

Lemma stable__send_row (row : Z) : stable P (_send_row row).
Proof. unfold _send_row. repeat stable_step. Qed.

Lemma stable__send_buf : stable P _send_buf.
Proof.
  rewrite _send_buf_step.
  apply stable_bind; [apply stable_gets | intros b].
  apply stable_bind; [ | intros; apply Hsend].
  apply stable_for_in. intros byte [d i]. simpl. repeat stable_step.
Qed.

Lemma stable__clear_column (column : Z) : stable P (_clear_column column).
Proof.
  unfold _clear_column.
  apply stable_bind; [apply stable_lift | intros mask].
  apply stable_for_in. intros row []. repeat stable_step.
Qed.

Lemma stable__set_column (column byte : Z) :
  stable P (_set_column column byte).
Proof.
  unfold _set_column.
  apply stable_bind; [apply stable__clear_column | intros _].
  apply stable_if; [apply stable_ret | ].
  apply stable_bind; [ | intros; apply stable_ret].
  apply stable_for_in. intros row mask. cbv zeta. repeat stable_step.
Qed.

Lemma stable_on : stable P on.
Proof. unfold on. repeat stable_step. Qed.

Lemma stable_run (o : op) :
  (forall bitmap, o = OpSet bitmap -> stable P (set bitmap)) ->
  stable P (run o).
Proof.
  intros Hset. destruct o; simpl.
  - apply stable_on.
  - unfold off. repeat stable_step.
  - apply Hsend.
  - unfold set_blinking.
    apply stable_bind; [apply Hblinking | intros _].
    apply stable_bind; [apply stable_gets | intros b].
    apply stable_if; [apply stable_on | apply stable_ret].
  - now apply Hset.
  - unfold clear. apply stable_bind; [ | intros; apply stable__send_buf].
    apply stable_for_in. intros; apply Hsetitem.
  - unfold set_row.
    apply stable_bind; [apply Hsetitem | intros; apply stable__send_row].
  - unfold clear_row, set_row.
    apply stable_bind; [apply Hsetitem | intros; apply stable__send_row].
  - unfold set_column.
    apply stable_bind;
      [apply stable__set_column | intros; apply stable__send_buf].
  - unfold clear_column.
    apply stable_bind;
      [apply stable__clear_column | intros; apply stable__send_buf].
  - unfold set_pixel.
    apply stable_bind; [apply stable_buf_getitem | intros x].
    apply stable_bind; [apply stable_lift | intros m].
    apply stable_bind; [apply Hsetitem | intros; apply stable__send_row].
  - unfold clear_pixel.
    apply stable_bind; [apply stable_buf_getitem | intros x].
    apply stable_bind; [apply stable_lift | intros m].
    apply stable_bind; [apply Hsetitem | intros; apply stable__send_row].
Qed.
End Stable.

Lemma wf_stable_setitem (row v : Z) : stable wf (buf_setitem row v).
Proof.
  intros s [Hlen Hb]. unfold buf_setitem, bind, gets, lift, modify.
  destruct (bytearray_setitem (buf s) row v) as [b' | e] eqn:Hset; simpl.
  - split; simpl.
    + now rewrite (setitem_length _ _ _ _ Hset).
    + exact (setitem_bytes _ _ _ _ Hb Hset).
  - now split.
Qed.

Lemma set_run_not_bytes (bitmap : list Z) (s : Matrix8x8) :
  forallb is_byte bitmap = false -> set bitmap s = (Raise ValueError, s).
Proof. intros Hb. unfold set, bytes_of. now rewrite Hb. Qed.

Lemma wf_stable_set (bitmap : list Z) :
  length bitmap = 8%nat -> stable wf (set bitmap).
Proof.
  intros Hlen s Hs. destruct (forallb is_byte bitmap) eqn:Hb.
  - rewrite set_run_le by (try assumption; lia). now split.
  - now rewrite set_run_not_bytes.
Qed.

(** The framebuffer stays one of 8 bytes through every call but a [set]
    with a bitmap of another length, whether the call returns or raises. *)
Lemma wf_stable_run (o : op) : keeps_length o -> stable wf (run o).
Proof.
  intros Ho. apply stable_run.
  - apply wf_stable_setitem.
  - intros d s Hs. exact Hs.
  - intros v s Hs. exact Hs.
  - intros v s Hs. exact Hs.
  - intros bitmap ->. now apply wf_stable_set.
Qed.

(** No method writes [addr]. *)
Lemma addr_stable_run (a : Z) (o : op) :
  stable (fun s => addr s = a) (run o).
Proof.
  apply stable_run.
  - intros row v s Hs. unfold buf_setitem, bind, gets, lift, modify.
    now destruct (bytearray_setitem (buf s) row v).
  - intros d s Hs. exact Hs.
  - intros v s Hs. exact Hs.
  - intros v s Hs. exact Hs.
  - intros bitmap _ s Hs. unfold set, bind, lift, modify.
    destruct (bytes_of bitmap) as [b | e]; [ | exact Hs].
    set (s1 := with_buf b s). change (addr s) with (addr s1) in Hs.
    apply (stable__send_buf (fun s => addr s = a)); [ | exact Hs].
    intros d t Ht. exact Ht.
Qed.

Lemma addr_run_all (os : list op) (s : Matrix8x8) :
  addr (run_all os s) = addr s.
Proof.
  revert s. induction os as [ | o os IH]; intros s; [reflexivity | ].
  simpl. rewrite IH. now apply (addr_stable_run (addr s) o).
Qed.

(** * The methods that do not use the blinking mode *)

Lemma free_ret {A : Type} (a : A) : blinking_free (ret a).
Proof. intros v s. reflexivity. Qed.

Lemma free_lift {A : Type} (r : result A) : blinking_free (lift r).
Proof. intros v s. reflexivity. Qed.

Lemma free_gets {A : Type} (f : Matrix8x8 -> A) :
  (forall v s, f (with_blinking v s) = f s) -> blinking_free (gets f).
Proof. intros Hf v s. unfold gets. now rewrite Hf. Qed.

Lemma free_modify (f : Matrix8x8 -> Matrix8x8) :
  (forall v s, f (with_blinking v s) = with_blinking v (f s)) ->
  blinking_free (modify f).
Proof. intros Hf v s. unfold modify. now rewrite Hf. Qed.

Lemma free_bind {A B : Type} (m : M A) (k : A -> M B) :
  blinking_free m -> (forall a, blinking_free (k a)) ->
  blinking_free (bind m k).
Proof.
  intros Hm Hk v s. unfold bind. rewrite Hm.
  destruct (m s) as [[a | e] s1]; simpl; [apply Hk | reflexivity].
Qed.

Lemma free_if {A : Type} (b : bool) (m1 m2 : M A) :
  blinking_free m1 -> blinking_free m2 ->
  blinking_free (if b then m1 else m2).
Proof. now destruct b. Qed.

Lemma free_for_in {A L : Type} (xs : list A) (body : A -> L -> M L) :
  (forall x l, blinking_free (body x l)) ->
  forall l, blinking_free (for_in xs body l).
Proof.
  intros Hbody. induction xs as [ | x xs IH]; intros l; simpl.
  - apply free_ret.
  - apply free_bind; [apply Hbody | exact IH].
Qed.

Lemma free_buf_getitem (row : Z) : blinking_free (buf_getitem row).
Proof.
  apply free_bind; [now apply free_gets | intros; apply free_lift].
Qed.

Lemma free_buf_setitem (row v : Z) : blinking_free (buf_setitem row v).
Proof.
  apply free_bind; [now apply free_gets | intros b].
  apply free_bind; [apply free_lift | intros b'].
  now apply free_modify.
Qed.

Lemma free__send (d : data) : blinking_free (_send d).
Proof. now apply free_modify. Qed.

Ltac free_step :=
  first [ apply free_buf_getitem | apply free_buf_setitem | apply free__send
        | apply free_ret | apply free_lift
        | apply free_if | apply free_bind | intros ? ].

Lemma free__send_row (row : Z) : blinking_free (_send_row row).
Proof. unfold _send_row. repeat free_step. Qed.

Lemma free__send_buf : blinking_free _send_buf.
Proof.
  rewrite _send_buf_step.
  apply free_bind; [now apply free_gets | intros b].
  apply free_bind; [ | intros; apply free__send].
  apply free_for_in. intros byte [d i]. simpl. repeat free_step.
Qed.

Lemma free__clear_column (column : Z) : blinking_free (_clear_column column).
Proof.
  unfold _clear_column.
  apply free_bind; [apply free_lift | intros mask].
  apply free_for_in. intros row []. repeat free_step.
Qed.

Lemma free__set_column (column byte : Z) :
  blinking_free (_set_column column byte).
Proof.
  unfold _set_column.
  apply free_bind; [apply free__clear_column | intros _].
  apply free_if; [apply free_ret | ].
  apply free_bind; [ | intros; apply free_ret].
  apply free_for_in. intros row mask. cbv zeta. repeat free_step.
Qed.

Lemma free_run (o : op) : uses_blinking o = false -> blinking_free (run o).
Proof.
  destruct o; simpl; try discriminate; intros _.
  - unfold off. apply free_bind; [now apply free_modify | intros; apply free__send].
  - apply free__send.
  - unfold set.
    apply free_bind; [apply free_lift | intros b].
    apply free_bind; [now apply free_modify | intros; apply free__send_buf].
  - unfold clear. apply free_bind; [ | intros; apply free__send_buf].
    apply free_for_in. intros; apply free_buf_setitem.
  - unfold set_row.
    apply free_bind; [apply free_buf_setitem | intros; apply free__send_row].
  - unfold clear_row, set_row.
    apply free_bind; [apply free_buf_setitem | intros; apply free__send_row].
  - unfold set_column.
    apply free_bind; [apply free__set_column | intros; apply free__send_buf].
  - unfold clear_column.
    apply free_bind; [apply free__clear_column | intros; apply free__send_buf].
  - unfold set_pixel.
    apply free_bind; [apply free_buf_getitem | intros x].
    apply free_bind; [apply free_lift | intros m].
    apply free_bind; [apply free_buf_setitem | intros; apply free__send_row].
  - unfold clear_pixel.
    apply free_bind; [apply free_buf_getitem | intros x].
    apply free_bind; [apply free_lift | intros m].
    apply free_bind; [apply free_buf_setitem | intros; apply free__send_row].
Qed.

(** Calls that do not use the blinking mode run the same whatever it is. *)
Lemma run_all_blinking (os : list op) (v : Z) (s : Matrix8x8) :
  forallb (fun o => negb (uses_blinking o)) os = true ->
  run_all os (with_blinking v s) = with_blinking v (run_all os s).
Proof.
  revert s. induction os as [ | o os IH]; intros s Hos; [reflexivity | ].
  simpl in Hos. apply andb_true_iff in Hos as [Ho Hos].
  apply negb_true_iff in Ho. simpl.
  rewrite (free_run o Ho v s). simpl. now apply IH.
Qed.

(** * Reading a row back *)

Lemma row_of_index (s : Matrix8x8) (r : Z) :
  wf s -> 0 <= r <= 7 ->
  exists k x,
    r = Z.of_nat k /\ (k < 8)%nat /\ norm_index 8 r = Some k /\
    buf s !! k = Some x /\ is_byte x = true /\ getitem (buf s) r = Ok x.
Proof.
  intros Hwf Hr. exists (Z.to_nat r).
  destruct (wf_lookup s (Z.to_nat r) Hwf) as (x & Hx & Hbx); [lia | ].
  assert (Hn : norm_index 8 r = Some (Z.to_nat r)).
  { rewrite <- (Z2Nat.id r) at 1 by lia. apply norm_index_nat. lia. }
  exists x. repeat split; try assumption; try lia.
  destruct Hwf as [Hlen _].
  apply (getitem_norm _ _ (Z.to_nat r)); [now rewrite Hlen | exact Hx].
Qed.

Lemma getitem_insert_ne (l : list Z) (i : Z) (k k' : nat) (y : Z) :
  norm_index (length l) i = Some k' -> k <> k' ->
  getitem (<[k := y]> l) i = getitem l i.
Proof.
  intros Hi Hne. unfold getitem. rewrite length_insert, Hi.
  now rewrite list_lookup_insert_ne.
Qed.

Lemma land_lor_same (a m : Z) : Z.land (Z.lor a m) m = m.
Proof.
  Z.bitwise. now destruct (Z.testbit a _), (Z.testbit m _).
Qed.

Lemma clear_bit_land (c x : Z) :
  0 <= c -> Z.land (clear_bit (Z.shiftr 0x80 c) x) (Z.shiftr 0x80 c) = 0.
Proof.
  intros Hc. apply Z.bits_inj'. intros i Hi.
  rewrite Z.land_spec, clear_bit_testbit, mask_testbit, Z.bits_0 by lia.
  now destruct (Z.testbit x i), (i + c =? 7).
Qed.

Lemma clear_bit_outside (c x : Z) :
  0 <= c ->
  same_bits_outside (Z.shiftr 0x80 c) x (clear_bit (Z.shiftr 0x80 c) x).
Proof.
  intros Hc i Hi Hm. rewrite clear_bit_testbit by lia.
  rewrite mask_testbit in Hm by lia. rewrite Hm. apply andb_true_r.
Qed.

Lemma mask_nonzero (c : Z) : 0 <= c <= 7 -> Z.shiftr 0x80 c <> 0.
Proof.
  intros Hc. rewrite mask_pow2 by lia. apply Z.pow_nonzero; lia.
Qed.

(** The bit read back from a row [_set_column] has written is the bit the
    byte had for the row. *)
Lemma read_back (c x : Z) (t : bool) :
  0 <= c <= 7 ->
  truthy (Z.land (Z.lor (clear_bit (Z.shiftr 0x80 c) x)
                    (if t then Z.shiftr 0x80 c else 0))
            (Z.shiftr 0x80 c)) = t.
Proof.
  intros Hc. rewrite Z.land_lor_distr_l, clear_bit_land by lia.
  rewrite Z.lor_0_l. unfold truthy. destruct t.
  - rewrite Z.land_diag.
    destruct (Z.eqb_spec (Z.shiftr 0x80 c) 0) as [E | E]; [ | reflexivity].
    now apply mask_nonzero in E.
  - reflexivity.
Qed.

(** The bits of a byte, most significant first, make the byte. *)
Lemma byte_of_bits (B : Z) (b : list Z) :
  0 <= B <= 255 -> length b = 8%nat ->
  foldr Z.lor 0
    (imap (fun k (_ : Z) =>
             if Z.testbit B (7 - Z.of_nat k)
             then Z.shiftr 0x80 (Z.of_nat k) else 0) b) = B.
Proof.
  intros HB Hlen.
  destruct (length8 b Hlen) as (x0 & x1 & x2 & x3 & x4 & x5 & x6 & x7 & ->).
  apply Z.eqb_eq.
  apply (forall_bytes
           (fun B => foldr Z.lor 0
              (imap (fun k (_ : Z) =>
                       if Z.testbit B (7 - Z.of_nat k)
                       then Z.shiftr 0x80 (Z.of_nat k) else 0)
                 [x0; x1; x2; x3; x4; x5; x6; x7]) =? B)); [ | lia].
  vm_compute. reflexivity.
Qed.

Lemma set_column_round_trip (c B : Z) (s : Matrix8x8) :
  wf s -> 0 <= c <= 7 -> 0 <= B <= 255 ->
  exists s', set_column c B s = (Ok tt, s') /\ column_byte c (buf s') = B.
Proof.
  intros Hwf Hc HB. eexists. split; [apply set_column_run; [exact Hwf | lia] | ].
  cbn [buf with_i2c with_buf]. unfold column_byte.
  etransitivity; [ | apply (byte_of_bits B (buf s) HB (proj1 Hwf))].
  f_equal. apply list_eq. intros k. rewrite !list_lookup_imap.
  destruct (buf s !! k); [simpl | reflexivity].
  now rewrite read_back.
Qed.

(** * The driver at work *)

(** The transport calls of the constructor: oscillator, brightness 15, the
    cleared framebuffer, display on without blinking. *)
Example init_calls :
  __init__ 0x70 15 =
    (Ok tt,
     mkMatrix8x8 0 0x70 [0; 0; 0; 0; 0; 0; 0; 0] true
       [(Int 0x21, 0x70); (Int 0xEF, 0x70);
        (Buf [0; 0; 0; 0; 0; 0; 0; 0; 0; 0; 0; 0; 0; 0; 0; 0], 0x70);
        (Int 0x81, 0x70)]).
Proof. reflexivity. Qed.

(** [set_row(2, 0xFF)] sends the address of row 2 and the rotated byte. *)
Example set_row_2 :
  i2c (snd (set_row 2 0xFF display0)) =
    i2c display0 ++ [(Buf [0x04; 0xFF], 0x70)].
Proof. reflexivity. Qed.

(** [set_column(3, 0xA5)] puts the bits of [0xA5] down column 3. *)
Example set_column_3 :
  buf (snd (set_column 3 0xA5 display0)) =
    [0x10; 0; 0x10; 0; 0; 0x10; 0; 0x10].
Proof. reflexivity. Qed.

(** A column past the last one changes nothing, a negative one raises. *)
Example set_column_8 :
  buf (snd (set_column 8 0xFF display0)) = buf display0 /\
  fst (set_column 8 0xFF display0) = Ok tt /\
  set_column (-1) 0xFF display0 = (Raise ValueError, display0).
Proof. repeat split. Qed.

(** A bitmap of 9 bytes becomes the framebuffer before the push raises. *)
Example set_9_bytes :
  set [1; 2; 3; 4; 5; 6; 7; 8; 9] display0 =
    (Raise IndexError, with_buf [1; 2; 3; 4; 5; 6; 7; 8; 9] display0).
Proof. reflexivity. Qed.

(** The value stored is checked before the index of the row. *)
Example set_row_bad_row_and_value :
  set_row 8 300 display0 = (Raise ValueError, display0) /\
  set_row 8 255 display0 = (Raise IndexError, display0).
Proof. split; reflexivity. Qed.

(** The row is read before the mask is computed. *)
Example set_pixel_bad_row_and_column :
  set_pixel 8 (-1) display0 = (Raise IndexError, display0) /\
  set_pixel 7 (-1) display0 = (Raise ValueError, display0).
Proof. split; reflexivity. Qed.

(** * The properties of the driver *)

(** ** The rotation *)

(** C6: [rotate_right] maps the bytes [0..255] to bytes, one to one and
    onto; applied 8 times it gives the byte back; it takes [0x01] to [0x80]
    and [0x80] to [0x40]. *)
Theorem rotate_right_bijection :
  (forall x, 0 <= x <= 255 -> 0 <= rotate_right x <= 255) /\
  (forall x y, 0 <= x <= 255 -> 0 <= y <= 255 ->
     rotate_right x = rotate_right y -> x = y) /\
  (forall y, 0 <= y <= 255 ->
     exists x, 0 <= x <= 255 /\ rotate_right x = y) /\
  (forall x, 0 <= x <= 255 -> Nat.iter 8 rotate_right x = x) /\
  rotate_right 0x01 = 0x80 /\
  rotate_right 0x80 = 0x40.
Proof.
  assert (Hrange : forall x, 0 <= rotate_right x <= 255).
  { intros x. pose proof (rotate_right_byte x) as H.
    apply is_byte_range in H. lia. }
  repeat split; try apply Hrange.
  - intros x y Hx Hy Heq.
    rewrite <- (rotate_left_right x), <- (rotate_left_right y) by lia.
    now rewrite Heq.
  - intros y Hy. exists (rotate_left y). split.
    + pose proof (rotate_left_byte y ltac:(lia)) as H.
      apply is_byte_range in H. lia.
    + apply rotate_right_left. lia.
  - intros x Hx. apply Z.eqb_eq.
    apply (forall_bytes (fun x => Nat.iter 8 rotate_right x =? x)); [ | lia].
    vm_compute. reflexivity.
Qed.

Lemma rotate_right_bijection_at_0x81 :
  0 <= rotate_right 0x81 <= 255 /\ Nat.iter 8 rotate_right 0x81 = 0x81.
Proof.
  destruct rotate_right_bijection as (Hr & _ & _ & Hi & _).
  split; [apply Hr | apply Hi]; lia.
Defined.

(** ** The full-buffer push *)

(** C1, as the code has it: a call that ends in [_send_buf] ([set] with 8
    bytes, [clear], [set_column], [clear_column]) returns, and makes one
    transport call, of a buffer of 16 bytes that holds the rotated row [k]
    of the framebuffer at the odd index [2 * k + 1] and 0 at the even index
    [2 * k]: the buffer is filled from index 1. *)
Theorem full_push_payload (o : op) (s : Matrix8x8) :
  wf s -> full_push_call o ->
  exists s' p,
    run o s = (Ok tt, s') /\
    length (buf s') = 8%nat /\
    i2c s' = i2c s ++ [(Buf p, addr s)] /\
    length p = 16%nat /\
    forall k x, buf s' !! k = Some x ->
      p !! (2 * k)%nat = Some 0 /\
      p !! (2 * k + 1)%nat = Some (rotate_right x).
Proof.
  intros Hwf Ho.
  assert (Hpush : forall b,
    length b = 8%nat ->
    run o s =
      (Ok tt, with_i2c (i2c s ++ [(Buf (payload b), addr s)]) (with_buf b s)) ->
    exists s' p,
      run o s = (Ok tt, s') /\
      length (buf s') = 8%nat /\
      i2c s' = i2c s ++ [(Buf p, addr s)] /\
      length p = 16%nat /\
      forall k x, buf s' !! k = Some x ->
        p !! (2 * k)%nat = Some 0 /\
        p !! (2 * k + 1)%nat = Some (rotate_right x)).
  { intros b Hb Hrun. destruct (payload_rows b Hb) as [Hlen Hrows].
    exists (with_i2c (i2c s ++ [(Buf (payload b), addr s)]) (with_buf b s)).
    exists (payload b).
    split; [exact Hrun | ]. split; [exact Hb | ].
    split; [reflexivity | ]. split; [exact Hlen | exact Hrows]. }
  destruct Hwf as [Hlen Hbytes].
  destruct o; simpl in Ho; try contradiction.
  - destruct Ho as [Hl Hb]. apply (Hpush bitmap Hl).
    apply set_run_le; [exact Hb | lia].
  - apply (Hpush (bytearray_zeros 8) eq_refl).
    now apply clear_run.
  - eapply Hpush; [ | now apply set_column_run].
    now rewrite length_imap.
  - eapply Hpush; [ | now apply clear_column_run].
    now rewrite length_imap.
Qed.

Lemma full_push_payload_set_column :
  exists s' p,
    run (OpSetColumn 3 0xA5) display0 = (Ok tt, s') /\
    length (buf s') = 8%nat /\
    i2c s' = i2c display0 ++ [(Buf p, addr display0)] /\
    length p = 16%nat /\
    forall k x, buf s' !! k = Some x ->
      p !! (2 * k)%nat = Some 0 /\
      p !! (2 * k + 1)%nat = Some (rotate_right x).
Proof.
  apply (full_push_payload (OpSetColumn 3 0xA5) display0).
  - split; reflexivity.
  - simpl. lia.
Defined.

(** C1, as stated, fails: after [set] of a bitmap whose row 0 is [0x01],
    index 0 of the buffer pushed holds 0, not [rotate_right 0x01 = 0x80],
    and the odd index 1 holds [0x80], not 0. *)
Lemma full_push_even_index_is_zero :
  exists s' p,
    set [0x01; 0; 0; 0; 0; 0; 0; 0] display0 = (Ok tt, s') /\
    i2c s' = i2c display0 ++ [(Buf p, addr display0)] /\
    getitem (buf s') 0 = Ok 0x01 /\
    rotate_right 0x01 = 0x80 /\
    getitem p 0 = Ok 0 /\
    getitem p 1 = Ok 0x80.
Proof.
  exists (snd (set [0x01; 0; 0; 0; 0; 0; 0; 0] display0)).
  exists [0; 0x80; 0; 0; 0; 0; 0; 0; 0; 0; 0; 0; 0; 0; 0; 0].
  repeat split.
Qed.

(** ** The bitmap *)

(** C2, as the code has it: [set] checks no length.  A bitmap of at most 8
    bytes, so also one of fewer than 8, replaces the whole framebuffer and
    is pushed; a bitmap of more than 8 bytes replaces the framebuffer too,
    and then the push raises [IndexError] before any transport call. *)
Theorem set_replaces_and_pushes (bitmap : list Z) (s : Matrix8x8) :
  forallb is_byte bitmap = true ->
  ((length bitmap <= 8)%nat ->
     set bitmap s =
       (Ok tt,
        with_i2c (i2c s ++ [(Buf (payload bitmap), addr s)])
          (with_buf bitmap s))) /\
  ((8 < length bitmap)%nat ->
     set bitmap s = (Raise IndexError, with_buf bitmap s)).
Proof.
  intros Hb. split; intros Hlen.
  - now apply set_run_le.
  - now apply set_run_gt.
Qed.

Lemma set_replaces_and_pushes_8_bytes :
  set [1; 2; 3; 4; 5; 6; 7; 8] display0 =
    (Ok tt,
     with_i2c (i2c display0 ++
               [(Buf (payload [1; 2; 3; 4; 5; 6; 7; 8]), addr display0)])
       (with_buf [1; 2; 3; 4; 5; 6; 7; 8] display0)).
Proof.
  apply (set_replaces_and_pushes [1; 2; 3; 4; 5; 6; 7; 8] display0).
  - reflexivity.
  - simpl. lia.
Defined.

(** C2, as stated, fails: a bitmap of 3 bytes is accepted, becomes the
    framebuffer and is pushed. *)
Lemma set_short_bitmap_accepted :
  length [1; 2; 3] <> 8%nat /\
  set [1; 2; 3] display0 =
    (Ok tt,
     with_i2c (i2c display0 ++
               [(Buf [0; 0x80; 0; 0x01; 0; 0x81; 0; 0; 0; 0; 0; 0; 0; 0; 0; 0],
                 0x70)])
       (with_buf [1; 2; 3] display0)).
Proof.
  split; [discriminate | reflexivity].
Qed.

(** ** The length of the framebuffer *)

(** C3, as the code has it: every public call but a [set] with a bitmap
    that has not 8 elements leaves a framebuffer of 8 bytes, whether it
    returns or raises.  A [set] replaces the framebuffer by its bitmap
    when the elements are bytes: the framebuffer then has the length of
    the bitmap, whatever it is, and the call returns when that is at most
    8 and raises from the push otherwise; when an element is not a byte
    the call raises [ValueError] and the framebuffer is as it was. *)
Theorem framebuffer_length_preserved (o : op) (s : Matrix8x8) :
  wf s ->
  (keeps_length o -> length (buf (snd (run o s))) = 8%nat) /\
  (forall bitmap, o = OpSet bitmap ->
     (forallb is_byte bitmap = true ->
        length (buf (snd (run o s))) = length bitmap /\
        (fst (run o s) = Ok tt <-> (length bitmap <= 8)%nat)) /\
     (forallb is_byte bitmap = false ->
        run o s = (Raise ValueError, s))).
Proof.
  intros Hwf. split.
  - intros Ho. now apply (wf_stable_run o Ho s Hwf).
  - intros bitmap ->. simpl. split; intros Hb.
    + destruct (Nat.le_gt_cases (length bitmap) 8) as [Hle | Hgt].
      * rewrite (set_run_le bitmap s Hb Hle). simpl.
        split; [reflexivity | now split].
      * rewrite (set_run_gt bitmap s Hb Hgt). simpl.
        split; [reflexivity | ]. split; [discriminate | lia].
    + now apply set_run_not_bytes.
Qed.

Lemma framebuffer_length_preserved_pixel :
  length (buf (snd (run (OpSetPixel 7 6) display0))) = 8%nat /\
  length (buf (snd (run (OpSet [1; 2; 3]) display0))) = length [1; 2; 3].
Proof.
  split.
  - apply (proj1 (framebuffer_length_preserved (OpSetPixel 7 6) display0
                    ltac:(split; reflexivity))).
    exact I.
  - apply (proj1 (proj2 (framebuffer_length_preserved (OpSet [1; 2; 3])
                           display0 ltac:(split; reflexivity))
                    [1; 2; 3] eq_refl)).
    reflexivity.
Defined.

(** C3, as stated, fails: [set] with a bitmap of 3 bytes returns and
    leaves a framebuffer of 3 bytes. *)
Lemma set_changes_length :
  length (buf display0) = 8%nat /\
  fst (set [1; 2; 3] display0) = Ok tt /\
  length (buf (snd (set [1; 2; 3] display0))) = 3%nat.
Proof.
  repeat split.
Qed.

(** ** The columns *)

(** C4: after [set_column(3, B)], the byte read back from bit [0x80 >> 3]
    of the rows 0 to 7, row [k] giving the bit at position [k] from the
    most significant one, is [B], for every byte [B]. *)
Theorem set_column_3_round_trip (B : Z) (s : Matrix8x8) :
  wf s -> 0 <= B <= 255 ->
  exists s', set_column 3 B s = (Ok tt, s') /\ column_byte 3 (buf s') = B.
Proof.
  intros Hwf HB. apply set_column_round_trip; [exact Hwf | lia | exact HB].
Qed.

Lemma set_column_3_round_trip_0xA5 :
  exists s',
    set_column 3 0xA5 display0 = (Ok tt, s') /\ column_byte 3 (buf s') = 0xA5.
Proof.
  apply (set_column_3_round_trip 0xA5 display0).
  - split; reflexivity.
  - lia.
Defined.

(** C5: for a column [c] in [0..7], [set_column(c, 0xFF)] sets the bit
    [0x80 >> c] in each of the 8 rows, and [clear_column(c)] clears it in
    each row and leaves the other bits of the row as they were. *)
Theorem column_set_and_clear (c : Z) (s : Matrix8x8) :
  wf s -> 0 <= c <= 7 ->
  (exists s',
     set_column c 0xFF s = (Ok tt, s') /\
     forall r, 0 <= r <= 7 ->
       exists y, getitem (buf s') r = Ok y /\
                 Z.land y (Z.shiftr 0x80 c) = Z.shiftr 0x80 c) /\
  (exists s',
     clear_column c s = (Ok tt, s') /\
     forall r, 0 <= r <= 7 ->
       exists x y,
         getitem (buf s) r = Ok x /\ getitem (buf s') r = Ok y /\
         Z.land y (Z.shiftr 0x80 c) = 0 /\
         same_bits_outside (Z.shiftr 0x80 c) x y).
Proof.
  intros Hwf Hc. split.
  - eexists. split; [apply set_column_run; [exact Hwf | lia] | ].
    intros r Hr. simpl.
    destruct (row_of_index s r Hwf Hr) as (k & x & -> & Hk & _ & Hx & _ & _).
    eexists. split.
    + apply getitem_nat. rewrite list_lookup_imap, Hx. reflexivity.
    + change 0xFF with (Z.ones 8).
      rewrite Z.testbit_ones_nonneg by lia.
      destruct (Z.ltb_spec (7 - Z.of_nat k) 8); [ | lia].
      apply land_lor_same.
  - eexists. split; [apply clear_column_run; [exact Hwf | lia] | ].
    intros r Hr. simpl.
    destruct (row_of_index s r Hwf Hr) as (k & x & -> & Hk & _ & Hx & _ & Hg).
    exists x. eexists. split; [exact Hg | ]. split.
    + apply getitem_nat. rewrite list_lookup_imap, Hx. reflexivity.
    + split; [apply clear_bit_land | apply clear_bit_outside]; lia.
Qed.

Lemma column_set_and_clear_column_5 :
  (exists s',
     set_column 5 0xFF display0 = (Ok tt, s') /\
     forall r, 0 <= r <= 7 ->
       exists y, getitem (buf s') r = Ok y /\
                 Z.land y (Z.shiftr 0x80 5) = Z.shiftr 0x80 5) /\
  (exists s',
     clear_column 5 display0 = (Ok tt, s') /\
     forall r, 0 <= r <= 7 ->
       exists x y,
         getitem (buf display0) r = Ok x /\ getitem (buf s') r = Ok y /\
         Z.land y (Z.shiftr 0x80 5) = 0 /\
         same_bits_outside (Z.shiftr 0x80 5) x y).
Proof.
  apply (column_set_and_clear 5 display0).
  - split; reflexivity.
  - lia.
Defined.

(** ** The pixels *)

(** C7: for a row [r] and a column [c] in [0..7], [set_pixel(r, c)] sets
    the bit [0x80 >> c] of row [r] and [clear_pixel(r, c)] clears it; both
    leave the other bits of row [r] and the other 7 rows as they were. *)
Theorem pixel_set_and_clear (r c : Z) (s : Matrix8x8) :
  wf s -> 0 <= r <= 7 -> 0 <= c <= 7 ->
  exists x,
    getitem (buf s) r = Ok x /\
    (exists s' y,
       set_pixel r c s = (Ok tt, s') /\
       getitem (buf s') r = Ok y /\
       Z.land y (Z.shiftr 0x80 c) = Z.shiftr 0x80 c /\
       same_bits_outside (Z.shiftr 0x80 c) x y /\
       forall r', 0 <= r' <= 7 -> r' <> r ->
         getitem (buf s') r' = getitem (buf s) r') /\
    (exists s' y,
       clear_pixel r c s = (Ok tt, s') /\
       getitem (buf s') r = Ok y /\
       Z.land y (Z.shiftr 0x80 c) = 0 /\
       same_bits_outside (Z.shiftr 0x80 c) x y /\
       forall r', 0 <= r' <= 7 -> r' <> r ->
         getitem (buf s') r' = getitem (buf s) r').
Proof.
  intros Hwf Hr Hc.
  destruct (row_of_index s r Hwf Hr) as (k & x & Hrk & Hk & Hn & Hx & Hbx & Hg).
  pose proof Hwf as [Hlen _].
  assert (Hother : forall y r', 0 <= r' <= 7 -> r' <> r ->
            getitem (<[k := y]> (buf s)) r' = getitem (buf s) r').
  { intros y r' Hr' Hne.
    destruct (row_of_index s r' Hwf Hr') as (k' & _ & Hrk' & _ & Hn' & _).
    apply (getitem_insert_ne _ _ k k'); [now rewrite Hlen | lia]. }
  assert (Hread : forall y, getitem (<[k := y]> (buf s)) r = Ok y).
  { intros y. apply (getitem_norm _ _ k).
    - now rewrite length_insert, Hlen.
    - apply list_lookup_insert_eq. lia. }
  exists x. split; [exact Hg | ]. split.
  - eexists. eexists.
    split; [apply (set_pixel_run r c k x s); try assumption; lia | ].
    simpl. split; [apply Hread | ]. split; [apply land_lor_same | ].
    split; [ | apply Hother].
    intros i Hi Hm. rewrite Z.lor_spec, Hm. apply orb_false_r.
  - eexists. eexists.
    split; [apply (clear_pixel_run r c k x s); try assumption; lia | ].
    simpl. split; [apply Hread | ]. split; [ | split; [ | apply Hother]].
    + apply Z.bits_inj'. intros i Hi.
      rewrite !Z.land_spec, Z.lnot_spec, Z.bits_0 by lia.
      now destruct (Z.testbit x i), (Z.testbit (Z.shiftr 0x80 c) i).
    + intros i Hi Hm. rewrite Z.land_spec, Z.lnot_spec, Hm by lia.
      apply andb_true_r.
Qed.

Lemma pixel_set_and_clear_7_6 :
  exists x,
    getitem (buf display0) 7 = Ok x /\
    (exists s' y,
       set_pixel 7 6 display0 = (Ok tt, s') /\
       getitem (buf s') 7 = Ok y /\
       Z.land y (Z.shiftr 0x80 6) = Z.shiftr 0x80 6 /\
       same_bits_outside (Z.shiftr 0x80 6) x y /\
       forall r', 0 <= r' <= 7 -> r' <> 7 ->
         getitem (buf s') r' = getitem (buf display0) r') /\
    (exists s' y,
       clear_pixel 7 6 display0 = (Ok tt, s') /\
       getitem (buf s') 7 = Ok y /\
       Z.land y (Z.shiftr 0x80 6) = 0 /\
       same_bits_outside (Z.shiftr 0x80 6) x y /\
       forall r', 0 <= r' <= 7 -> r' <> 7 ->
         getitem (buf s') r' = getitem (buf display0) r').
Proof.
  apply (pixel_set_and_clear 7 6 display0).
  - split; reflexivity.
  - lia.
  - lia.
Defined.

(** ** Blinking and brightness *)

(** C8: [set_blinking(mode)] on a display that is on makes one transport
    call, of the command [0x81 | mode << 1]; on a display that is off it
    makes none, and whatever calls follow that do not use the mode (all
    but [on] and [set_blinking]) send what they would have sent without
    it, until [on] sends the command of the mode. *)
Theorem set_blinking_transport (mode : Z) (s : Matrix8x8) :
  (is_on s = true ->
     exists s',
       set_blinking mode s = (Ok tt, s') /\
       i2c s' = i2c s ++ [(Int (Z.lor 0x81 (Z.shiftl mode 1)), addr s)]) /\
  (is_on s = false ->
     exists s',
       set_blinking mode s = (Ok tt, s') /\
       i2c s' = i2c s /\
       forall os, forallb (fun o => negb (uses_blinking o)) os = true ->
         i2c (run_all os s') = i2c (run_all os s) /\
         exists s2,
           on (run_all os s') = (Ok tt, s2) /\
           i2c s2 =
             i2c (run_all os s') ++
             [(Int (Z.lor 0x81 (Z.shiftl mode 1)), addr s)]).
Proof.
  split; intros Hon.
  - eexists. rewrite set_blinking_run, Hon. split; reflexivity.
  - exists (with_blinking mode s). rewrite set_blinking_run, Hon.
    split; [reflexivity | ]. split; [reflexivity | ].
    intros os Hos. rewrite (run_all_blinking os mode s Hos).
    split; [reflexivity | ].
    eexists. split; [apply on_run | ].
    simpl. now rewrite addr_run_all.
Qed.

Lemma set_blinking_transport_mode_2 :
  (exists s',
     set_blinking 2 display0 = (Ok tt, s') /\
     i2c s' = i2c display0 ++ [(Int (Z.lor 0x81 (Z.shiftl 2 1)), 0x70)]) /\
  (exists s',
     set_blinking 2 (snd (off display0)) = (Ok tt, s') /\
     i2c s' = i2c (snd (off display0)) /\
     forall os, forallb (fun o => negb (uses_blinking o)) os = true ->
       i2c (run_all os s') = i2c (run_all os (snd (off display0))) /\
       exists s2,
         on (run_all os s') = (Ok tt, s2) /\
         i2c s2 =
           i2c (run_all os s') ++ [(Int (Z.lor 0x81 (Z.shiftl 2 1)), 0x70)]).
Proof.
  split.
  - apply (proj1 (set_blinking_transport 2 display0)). reflexivity.
  - apply (proj2 (set_blinking_transport 2 (snd (off display0)))). reflexivity.
Defined.

(** C9, as the code has it: [set_brightness(v)] checks no range and sends
    the command [0xE0 | v] at once, whatever [v]; for [v] in [0..15] the
    command is the byte [0xE0 + v]. *)
Theorem set_brightness_sends (v : Z) (s : Matrix8x8) :
  set_brightness v s =
    (Ok tt, with_i2c (i2c s ++ [(Int (Z.lor 0xE0 v), addr s)]) s) /\
  (0 <= v <= 15 -> Z.lor 0xE0 v = 0xE0 + v).
Proof.
  split; [apply set_brightness_run | ].
  intros Hv.
  assert (Hcases : v = 0 \/ v = 1 \/ v = 2 \/ v = 3 \/ v = 4 \/ v = 5 \/
                   v = 6 \/ v = 7 \/ v = 8 \/ v = 9 \/ v = 10 \/ v = 11 \/
                   v = 12 \/ v = 13 \/ v = 14 \/ v = 15) by lia.
  repeat (destruct Hcases as [-> | Hcases]; [reflexivity | ]).
  now subst.
Qed.

Lemma set_brightness_sends_15 :
  set_brightness 15 display0 =
    (Ok tt,
     with_i2c (i2c display0 ++ [(Int (Z.lor 0xE0 15), addr display0)])
       display0) /\
  Z.lor 0xE0 15 = 0xE0 + 15.
Proof.
  split.
  - apply (proj1 (set_brightness_sends 15 display0)).
  - apply (proj2 (set_brightness_sends 15 display0)). lia.
Defined.

(** C9, as stated, fails: [set_brightness(16)] raises nothing and sends
    the command [0xE0 | 16 = 0xF0]. *)
Lemma set_brightness_16_is_sent :
  ~ (0 <= 16 <= 15) /\
  set_brightness 16 display0 =
    (Ok tt, with_i2c (i2c display0 ++ [(Int 0xF0, 0x70)]) display0).
Proof.
  split; [lia | reflexivity].
Qed.

(** ** The rows *)

(** C10: for a row index [r] in [-8..-1] and a byte [b], [set_row(r, b)]
    raises nothing: it writes [b] to row [r + 8] and pushes that row, at
    the address of row [r + 8]; [set_row] raises [IndexError] exactly for
    the indices below [-8] or above 7. *)
Theorem set_row_negative_index (r b : Z) (s : Matrix8x8) :
  wf s -> 0 <= b <= 255 ->
  (-8 <= r <= -1 ->
     set_row r b s =
       (Ok tt,
        with_i2c (i2c s ++ [(Buf [2 * (r + 8); rotate_right b], addr s)])
          (with_buf (<[Z.to_nat (r + 8) := b]> (buf s)) s)) /\
     getitem (<[Z.to_nat (r + 8) := b]> (buf s)) (r + 8) = Ok b) /\
  (fst (set_row r b s) = Raise IndexError <-> r < -8 \/ 7 < r).
Proof.
  intros [Hlen Hbytes] Hb.
  assert (Hbyte : is_byte b = true) by (apply is_byte_range; lia).
  split.
  - intros Hr.
    assert (Hn : norm_index 8 r = Some (Z.to_nat (r + 8)))
      by (apply (norm_index_neg 8); lia).
    split.
    + rewrite (set_row_run r b _ s Hlen Hn Hbyte).
      now rewrite Z2Nat.id by lia.
    + apply (getitem_norm _ _ (Z.to_nat (r + 8))).
      * rewrite length_insert, Hlen.
        rewrite <- (Z2Nat.id (r + 8)) at 1 by lia.
        apply norm_index_nat. lia.
      * apply list_lookup_insert_eq. lia.
  - split.
    + intros Hraise.
      destruct (norm_index_cases 8 r) as [[_ [k Hk]] | [Hout _]];
        [ | simpl in Hout; lia].
      rewrite (set_row_run r b k s Hlen Hk Hbyte) in Hraise. discriminate.
    + intros Hr. now rewrite set_row_out.
Qed.

Lemma set_row_negative_index_last_row :
  (set_row (-1) 0xFF display0 =
     (Ok tt,
      with_i2c (i2c display0 ++
                [(Buf [2 * (-1 + 8); rotate_right 0xFF], addr display0)])
        (with_buf (<[Z.to_nat (-1 + 8) := 0xFF]> (buf display0)) display0)) /\
   getitem (<[Z.to_nat (-1 + 8) := 0xFF]> (buf display0)) (-1 + 8) = Ok 0xFF) /\
  (fst (set_row 8 0xFF display0) = Raise IndexError <-> 8 < -8 \/ 7 < 8).
Proof.
  split.
  - apply (proj1 (set_row_negative_index (-1) 0xFF display0
                    ltac:(split; reflexivity) ltac:(lia))). lia.
  - apply (proj2 (set_row_negative_index 8 0xFF display0
                    ltac:(split; reflexivity) ltac:(lia))).
Defined.

(** * More of the driver *)

(** ** Construction *)

(** X1: whatever the address and the brightness given, the constructor
    returns, having made four transport calls in this order: oscillator on
    ([0x21]), the brightness command, the push of the cleared framebuffer,
    display on without blinking ([0x81]); the instance is then on, with a
    framebuffer of 8 zero bytes. *)
Theorem init_calls_in_order (a brightness : Z) :
  __init__ a brightness =
    (Ok tt,
     mkMatrix8x8 0 a [0; 0; 0; 0; 0; 0; 0; 0] true
       [(Int 0x21, a);
        (Int (Z.lor 0xE0 brightness), a);
        (Buf [0; 0; 0; 0; 0; 0; 0; 0; 0; 0; 0; 0; 0; 0; 0; 0], a);
        (Int 0x81, a)]) /\
  wf (snd (__init__ a brightness)).
Proof.
  split; [reflexivity | split; reflexivity].
Qed.

Lemma wf_run_all (os : list op) (s : Matrix8x8) :
  wf s -> Forall keeps_length os -> wf (run_all os s).
Proof.
  intros Hwf Hos. revert s Hwf.
  induction Hos as [ | o os Ho _ IH]; intros s Hwf; [exact Hwf | ].
  simpl. apply IH. now apply (wf_stable_run o Ho).
Qed.

(** X2: through any sequence of calls on a constructed driver, returning
    or raising, in which every [set] is given 8 elements, the framebuffer
    keeps 8 bytes. *)
Theorem constructed_framebuffer_8_bytes
    (a brightness : Z) (os : list op) :
  Forall keeps_length os ->
  length (buf (run_all os (snd (__init__ a brightness)))) = 8%nat.
Proof.
  intros Hos. apply (wf_run_all os); [ | exact Hos].
  split; reflexivity.
Qed.

Lemma constructed_framebuffer_8_bytes_calls :
  length (buf (run_all [OpSetRow 9 1; OpSet [1; 2; 3; 4; 5; 6; 7; 8];
                        OpSetColumn (-1) 3; OpClearPixel 2 2]
                 (snd (__init__ 0x71 3)))) = 8%nat.
Proof.
  apply (constructed_framebuffer_8_bytes 0x71 3).
  repeat constructor.
Defined.

(** ** Clearing *)

Lemma zero_rows_none (k : nat) (b : list Z) : zero_rows k 0 b = b.
Proof.
  apply list_eq. intros j. unfold zero_rows. rewrite list_lookup_imap.
  destruct (b !! j); [cbn -[Nat.leb Nat.ltb Nat.add] | reflexivity].
  destruct (Nat.leb_spec k j), (Nat.ltb_spec j (k + 0)); try reflexivity; lia.
Qed.

Lemma zero_rows_past (k m : nat) (b : list Z) :
  (length b <= k)%nat -> zero_rows k m b = b.
Proof.
  intros Hk. apply list_eq. intros j. unfold zero_rows.
  rewrite list_lookup_imap.
  destruct (b !! j) eqn:Hj; [cbn -[Nat.leb Nat.ltb Nat.add] | reflexivity].
  assert (j < length b)%nat by (apply lookup_lt_is_Some; eauto).
  destruct (Nat.leb_spec k j); [lia | reflexivity].
Qed.

Lemma zero_rows_insert (k m : nat) (b : list Z) :
  (k < length b)%nat ->
  zero_rows (S k) m (<[k := 0]> b) = zero_rows k (S m) b.
Proof.
  intros Hk. apply list_eq. intros j. unfold zero_rows.
  rewrite !list_lookup_imap. destruct (decide (k = j)) as [<- | Hne].
  - rewrite list_lookup_insert_eq by exact Hk.
    destruct (lookup_lt_is_Some_2 b k Hk) as [x ->].
    cbn -[Nat.leb Nat.ltb Nat.add].
    destruct (Nat.leb_spec (S k) k); [lia | ].
    destruct (Nat.leb_spec k k), (Nat.ltb_spec k (k + S m));
      try reflexivity; lia.
  - rewrite list_lookup_insert_ne by exact Hne.
    destruct (b !! j); [cbn -[Nat.leb Nat.ltb Nat.add] | reflexivity].
    destruct (Nat.leb_spec (S k) j), (Nat.leb_spec k j),
             (Nat.ltb_spec j (S k + m)), (Nat.ltb_spec j (k + S m));
      try reflexivity; lia.
Qed.

(** The loop of [clear] on a framebuffer of any length: it zeroes the rows
    there are and raises at the first index past them. *)
Lemma clear_loop (m : nat) :
  forall (k : nat) (s : Matrix8x8),
    (k <= length (buf s))%nat ->
    for_in (map Z.of_nat (seq k m)) (fun i (_ : unit) => buf_setitem i 0) tt s =
      (if (k + m <=? length (buf s))%nat then Ok tt else Raise IndexError,
       with_buf (zero_rows k m (buf s)) s).
Proof.
  induction m as [ | m IH]; intros k s Hk.
  - simpl. rewrite zero_rows_none, with_buf_buf.
    destruct (Nat.leb_spec (k + 0) (length (buf s))); [reflexivity | lia].
  - cbn [seq map for_in].
    destruct (Nat.eq_dec k (length (buf s))) as [Heq | Hne].
    + rewrite (bind_Raise _ _ s IndexError s)
        by (apply buf_setitem_out; [reflexivity | lia]).
      rewrite zero_rows_past, with_buf_buf by lia.
      destruct (Nat.leb_spec (k + S m) (length (buf s))); [lia | reflexivity].
    + rewrite (bind_Ok _ _ _ _ _ (buf_setitem_nat s k 0 ltac:(lia) eq_refl)).
      rewrite IH by (simpl; rewrite length_insert; lia).
      cbn [buf with_buf]. rewrite length_insert, zero_rows_insert by lia.
      rewrite with_buf_twice.
      now replace (S k + m)%nat with (k + S m)%nat by lia.
Qed.

Lemma zero_rows_all (b : list Z) :
  (length b <= 8)%nat -> zero_rows 0 8 b = replicate (length b) 0.
Proof.
  intros Hlen. apply list_eq. intros j. unfold zero_rows.
  rewrite list_lookup_imap.
  destruct (b !! j) eqn:Hj; cbn -[Nat.leb Nat.ltb Nat.add].
  - assert (j < length b)%nat by (apply lookup_lt_is_Some; eauto).
    destruct (Nat.ltb_spec j (0 + 8)); [ | lia].
    symmetry. now apply lookup_replicate_2.
  - symmetry. apply lookup_ge_None. rewrite length_replicate.
    now apply lookup_ge_None.
Qed.

(** X3: on a framebuffer of 8 elements, [clear] returns, leaves 8 zero
    rows and makes one transport call, of the 16 zero bytes; on a
    framebuffer of another length, as a [set] with such a bitmap leaves
    it, [clear] raises [IndexError] without any transport call, having
    zeroed the rows there are when there are fewer than 8. *)
Theorem clear_zeroes_or_raises (s : Matrix8x8) :
  (length (buf s) = 8%nat ->
     clear s =
       (Ok tt,
        with_i2c (i2c s ++ [(Buf (replicate 16 0), addr s)])
          (with_buf (replicate 8 0) s))) /\
  ((length (buf s) < 8)%nat ->
     clear s =
       (Raise IndexError, with_buf (replicate (length (buf s)) 0) s)) /\
  ((8 < length (buf s))%nat ->
     exists s', clear s = (Raise IndexError, s') /\ i2c s' = i2c s).
Proof.
  unfold clear. change (range 8) with (map Z.of_nat (seq 0 8)).
  pose proof (clear_loop 8 0 s ltac:(lia)) as Hloop.
  split; [ | split]; intros Hlen.
  - rewrite Hlen in Hloop. simpl (_ <=? _)%nat in Hloop.
    rewrite (bind_Ok _ _ _ _ _ Hloop).
    rewrite zero_rows_all, Hlen by lia.
    now rewrite _send_buf_run by (simpl; lia).
  - destruct (Nat.leb_spec (0 + 8) (length (buf s))); [lia | ].
    rewrite (bind_Raise _ _ _ _ _ Hloop).
    now rewrite zero_rows_all by lia.
  - destruct (Nat.leb_spec (0 + 8) (length (buf s))); [ | lia].
    rewrite (bind_Ok _ _ _ _ _ Hloop).
    eexists. split; [apply _send_buf_raise | reflexivity].
    simpl. unfold zero_rows. now rewrite length_imap.
Qed.

Lemma clear_zeroes_or_raises_after_set :
  clear (snd (set [0xFF; 0xFF; 0xFF; 0xFF; 0xFF; 0xFF; 0xFF; 0xFF] display0)) =
    (Ok tt,
     with_i2c (i2c (snd (set [0xFF; 0xFF; 0xFF; 0xFF; 0xFF; 0xFF; 0xFF; 0xFF]
                           display0)) ++
               [(Buf (replicate 16 0), 0x70)])
       (with_buf (replicate 8 0) display0)) /\
  clear (snd (set [1; 2; 3] display0)) =
    (Raise IndexError,
     with_buf (replicate 3 0) (snd (set [1; 2; 3] display0))).
Proof.
  split.
  - apply (proj1 (clear_zeroes_or_raises
                    (snd (set [0xFF; 0xFF; 0xFF; 0xFF; 0xFF; 0xFF; 0xFF; 0xFF]
                            display0)))).
    reflexivity.
  - apply (proj1 (proj2 (clear_zeroes_or_raises (snd (set [1; 2; 3] display0))))).
    simpl. lia.
Defined.

(** ** Rows *)

Lemma norm_index_row (r : Z) :
  -8 <= r <= 7 -> norm_index 8 r = Some (row_index r).
Proof.
  intros Hr. unfold row_index. destruct (Z.lt_ge_cases r 0).
  - rewrite (norm_index_neg 8) by lia. do 2 f_equal.
    change (Z.of_nat 8) with 8.
    apply (Z.mod_unique r 8 (-1)); lia.
  - rewrite <- (Z2Nat.id r) at 1 by lia.
    rewrite norm_index_nat by lia. now rewrite Z.mod_small by lia.
Qed.

Lemma row_index_lt (r : Z) : (row_index r < 8)%nat.
Proof.
  unfold row_index. pose proof (Z.mod_pos_bound r 8). lia.
Qed.

Lemma getitem_insert (b : list Z) (k : nat) (v r' : Z) :
  length b = 8%nat -> (k < 8)%nat -> 0 <= r' <= 7 ->
  getitem (<[k := v]> b) r' =
  if r' =? Z.of_nat k then Ok v else getitem b r'.
Proof.
  intros Hlen Hk Hr'.
  assert (Hn : norm_index 8 r' = Some (Z.to_nat r')).
  { rewrite <- (Z2Nat.id r') at 1 by lia. apply norm_index_nat. lia. }
  destruct (Z.eqb_spec r' (Z.of_nat k)) as [-> | Hne].
  - apply (getitem_norm _ _ k).
    + rewrite length_insert, Hlen. apply norm_index_nat. lia.
    + apply list_lookup_insert_eq. lia.
  - apply (getitem_insert_ne _ _ k (Z.to_nat r')); [now rewrite Hlen | lia].
Qed.

(** X4: for a row index [r] in [-8..7] and a byte [b], [set_row(r, b)]
    returns, makes one transport call, of the two bytes [2 * (r mod 8)]
    (the address of the row) and [rotate_right(b)], and leaves a
    framebuffer that reads [b] at row [r mod 8] and is unchanged at every
    other row. *)
Theorem set_row_writes_one_row (r b : Z) (s : Matrix8x8) :
  length (buf s) = 8%nat -> -8 <= r <= 7 -> 0 <= b <= 255 ->
  exists s',
    set_row r b s = (Ok tt, s') /\
    i2c s' = i2c s ++ [(Buf [2 * (r mod 8); rotate_right b], addr s)] /\
    forall r', 0 <= r' <= 7 ->
      getitem (buf s') r' =
      if r' =? r mod 8 then Ok b else getitem (buf s) r'.
Proof.
  intros Hlen Hr Hb. eexists. split.
  - apply (set_row_run r b (row_index r) s Hlen (norm_index_row r Hr)).
    apply is_byte_range. lia.
  - pose proof (Z.mod_pos_bound r 8 ltac:(lia)) as Hm.
    cbn [i2c buf with_i2c with_buf]. unfold row_index at 1.
    rewrite Z2Nat.id by lia. split; [reflexivity | ].
    intros r' Hr'.
    rewrite (getitem_insert _ _ _ _ Hlen (row_index_lt r) Hr').
    unfold row_index. now rewrite Z2Nat.id by lia.
Qed.

Lemma set_row_writes_one_row_5 :
  exists s',
    set_row 5 0x81 display0 = (Ok tt, s') /\
    i2c s' =
      i2c display0 ++ [(Buf [2 * (5 mod 8); rotate_right 0x81], addr display0)] /\
    forall r', 0 <= r' <= 7 ->
      getitem (buf s') r' =
      if r' =? 5 mod 8 then Ok 0x81 else getitem (buf display0) r'.
Proof.
  apply (set_row_writes_one_row 5 0x81 display0); [reflexivity | lia | lia].
Defined.

(** X5: on a framebuffer of 8 bytes, [clear_row(r)] for [r] in [-8..7]
    zeroes row [r mod 8] and sends its address followed by 0; for any
    other [r] it raises [IndexError], changes nothing and sends nothing. *)
Theorem clear_row_zeroes_or_raises (r : Z) (s : Matrix8x8) :
  length (buf s) = 8%nat ->
  (-8 <= r <= 7 ->
     clear_row r s =
       (Ok tt,
        with_i2c (i2c s ++ [(Buf [2 * (r mod 8); 0], addr s)])
          (with_buf (<[row_index r := 0]> (buf s)) s))) /\
  (r < -8 \/ 7 < r -> clear_row r s = (Raise IndexError, s)).
Proof.
  intros Hlen. unfold clear_row. split; intros Hr.
  - rewrite (set_row_run r 0 (row_index r) s Hlen (norm_index_row r Hr) eq_refl).
    pose proof (Z.mod_pos_bound r 8 ltac:(lia)) as Hm.
    unfold row_index at 1. now rewrite Z2Nat.id by lia.
  - now apply set_row_out.
Qed.

Lemma clear_row_zeroes_or_raises_rows :
  clear_row (-1) display0 =
    (Ok tt,
     with_i2c (i2c display0 ++ [(Buf [2 * (-1 mod 8); 0], addr display0)])
       (with_buf (<[row_index (-1) := 0]> (buf display0)) display0)) /\
  clear_row 8 display0 = (Raise IndexError, display0).
Proof.
  split.
  - apply (proj1 (clear_row_zeroes_or_raises (-1) display0 eq_refl)). lia.
  - apply (proj2 (clear_row_zeroes_or_raises 8 display0 eq_refl)). lia.
Defined.

(** ** Columns *)

Lemma clear_bit_lnot (c x : Z) :
  0 <= c ->
  clear_bit (Z.shiftr 0x80 c) x = Z.land x (Z.lnot (Z.shiftr 0x80 c)).
Proof.
  intros Hc. apply Z.bits_inj'. intros i Hi.
  now rewrite clear_bit_testbit, Z.land_spec, Z.lnot_spec, mask_testbit by lia.
Qed.

Lemma clear_bit_lor (c x : Z) :
  0 <= c ->
  Z.lor (clear_bit (Z.shiftr 0x80 c) x) (Z.shiftr 0x80 c) =
  Z.lor x (Z.shiftr 0x80 c).
Proof.
  intros Hc. apply Z.bits_inj'. intros i Hi.
  rewrite !Z.lor_spec, clear_bit_testbit, mask_testbit by lia.
  now destruct (Z.testbit x i), (i + c =? 7).
Qed.

Lemma mask_past (c : Z) : 8 <= c -> Z.shiftr 0x80 c = 0.
Proof.
  intros Hc. apply Z.shiftr_eq_0; [lia | ].
  change (Z.log2 0x80) with 7. lia.
Qed.

Lemma column_row_other (c c' x : Z) (t : bool) :
  0 <= c -> 0 <= c' -> c' <> c ->
  Z.land (Z.lor (clear_bit (Z.shiftr 0x80 c) x)
            (if t then Z.shiftr 0x80 c else 0))
    (Z.shiftr 0x80 c') =
  Z.land x (Z.shiftr 0x80 c').
Proof.
  intros Hc Hc' Hne. apply Z.bits_inj'. intros i Hi.
  rewrite !Z.land_spec, Z.lor_spec, clear_bit_testbit by lia.
  rewrite (mask_testbit c') by lia.
  assert (Ht : Z.testbit (if t then Z.shiftr 0x80 c else 0) i =
               t && (i + c =? 7)).
  { destruct t; [now apply mask_testbit | apply Z.bits_0]. }
  rewrite Ht.
  destruct (Z.eqb_spec (i + c) 7), (Z.eqb_spec (i + c') 7); try lia;
    now destruct (Z.testbit x i), t.
Qed.

(** X6: for every column [c] in [0..7] and byte [B], after
    [set_column(c, B)] the byte read back from column [c] is [B], and the
    byte read back from any other column is what it was. *)
Theorem set_column_reads_back (c c' B : Z) (s : Matrix8x8) :
  wf s -> 0 <= c <= 7 -> 0 <= c' <= 7 -> c' <> c -> 0 <= B <= 255 ->
  exists s',
    set_column c B s = (Ok tt, s') /\
    column_byte c (buf s') = B /\
    column_byte c' (buf s') = column_byte c' (buf s).
Proof.
  intros Hwf Hc Hc' Hne HB.
  destruct (set_column_round_trip c B s Hwf Hc HB) as (s' & Hrun & Hback).
  exists s'. split; [exact Hrun | ]. split; [exact Hback | ].
  rewrite (set_column_run c B s Hwf ltac:(lia)) in Hrun.
  injection Hrun as <-. cbn [buf with_i2c with_buf]. unfold column_byte.
  f_equal. apply list_eq. intros k. rewrite !list_lookup_imap.
  destruct (buf s !! k); [simpl | reflexivity].
  now rewrite column_row_other by lia.
Qed.

Lemma set_column_reads_back_2_and_6 :
  exists s',
    set_column 2 0x3C (snd (set_column 6 0xFF display0)) = (Ok tt, s') /\
    column_byte 2 (buf s') = 0x3C /\
    column_byte 6 (buf s') =
      column_byte 6 (buf (snd (set_column 6 0xFF display0))).
Proof.
  apply (set_column_reads_back 2 6 0x3C (snd (set_column 6 0xFF display0)));
    [split; reflexivity | lia | lia | lia | lia].
Defined.

(** X7: [set_column(c, 0)] is [clear_column(c)]: the same result, the same
    framebuffer and the same transport call, on every instance and for
    every [c]. *)
Theorem set_column_0_is_clear_column (c : Z) (s : Matrix8x8) :
  set_column c 0 s = clear_column c s.
Proof.
  unfold set_column, clear_column, _set_column, bind. simpl (0 =? 0).
  now destruct (_clear_column c s) as [[[] | e] s1].
Qed.

(** X8: the column is not checked against the width.  A column past 7
    gives the mask 0: [set_column] and [clear_column] then leave the
    framebuffer as it is and still push it.  A negative column makes the
    shift raise [ValueError], before anything is written or sent. *)
Theorem column_out_of_range (c B : Z) (s : Matrix8x8) :
  wf s ->
  (8 <= c ->
     set_column c B s =
       (Ok tt, with_i2c (i2c s ++ [(Buf (payload (buf s)), addr s)]) s) /\
     clear_column c s =
       (Ok tt, with_i2c (i2c s ++ [(Buf (payload (buf s)), addr s)]) s)) /\
  (c < 0 ->
     set_column c B s = (Raise ValueError, s) /\
     clear_column c s = (Raise ValueError, s)).
Proof.
  intros Hwf. split; intros Hc.
  - assert (Hsame : forall F : nat -> Z -> Z,
              (forall k x, F k x = x) -> imap F (buf s) = buf s).
    { intros F HF. apply list_eq. intros k. rewrite list_lookup_imap.
      destruct (buf s !! k); [simpl; now rewrite HF | reflexivity]. }
    assert (Hclear : forall x, clear_bit (Z.shiftr 0x80 c) x = x).
    { intros x. rewrite mask_past by exact Hc. unfold clear_bit.
      now rewrite Z.land_0_r. }
    split.
    + rewrite (set_column_run c B s Hwf ltac:(lia)).
      rewrite Hsame; [now rewrite with_buf_buf | ].
      intros k x. rewrite Hclear, mask_past by exact Hc.
      destruct (Z.testbit B _); apply Z.lor_0_r.
    + rewrite (clear_column_run c s Hwf ltac:(lia)).
      rewrite Hsame; [now rewrite with_buf_buf | ].
      intros k x. apply Hclear.
  - unfold set_column, clear_column, _set_column, _clear_column, py_rshift.
    destruct (Z.ltb_spec c 0); [ | lia]. split; reflexivity.
Qed.

Lemma column_out_of_range_8_and_minus_1 :
  (set_column 8 0xFF display0 =
     (Ok tt,
      with_i2c (i2c display0 ++ [(Buf (payload (buf display0)), addr display0)])
        display0) /\
   clear_column 8 display0 =
     (Ok tt,
      with_i2c (i2c display0 ++ [(Buf (payload (buf display0)), addr display0)])
        display0)) /\
  (set_column (-1) 0xFF display0 = (Raise ValueError, display0) /\
   clear_column (-1) display0 = (Raise ValueError, display0)).
Proof.
  split.
  - apply (proj1 (column_out_of_range 8 0xFF display0 wf_display0)). lia.
  - apply (proj2 (column_out_of_range (-1) 0xFF display0 wf_display0)). lia.
Defined.

(** X9: [set_column(c, byte)] does to each row what the pixel methods do:
    row [r] gets [x | (0x80 >> c)], as from [set_pixel(r, c)], when [byte]
    has the bit [7 - r], and [x & ~(0x80 >> c)], as from
    [clear_pixel(r, c)], when it has not; the bits of [byte] above the
    eighth play no part. *)
Theorem set_column_row_by_row (c B r : Z) (s : Matrix8x8) :
  wf s -> 0 <= c -> 0 <= r <= 7 ->
  exists s' x,
    set_column c B s = (Ok tt, s') /\
    getitem (buf s) r = Ok x /\
    getitem (buf s') r =
      Ok (if Z.testbit B (7 - r)
          then Z.lor x (Z.shiftr 0x80 c)
          else Z.land x (Z.lnot (Z.shiftr 0x80 c))).
Proof.
  intros Hwf Hc Hr.
  destruct (row_of_index s r Hwf Hr) as (k & x & -> & Hk & _ & Hx & _ & Hg).
  eexists. exists x. split; [apply (set_column_run c B s Hwf Hc) | ].
  split; [exact Hg | ]. cbn [buf with_i2c with_buf].
  apply getitem_nat. rewrite list_lookup_imap, Hx. simpl. f_equal.
  destruct (Z.testbit B (7 - Z.of_nat k)).
  - now apply clear_bit_lor.
  - rewrite Z.lor_0_r. now apply clear_bit_lnot.
Qed.

Lemma set_column_row_by_row_4_1 :
  exists s' x,
    set_column 4 0x1C3 display0 = (Ok tt, s') /\
    getitem (buf display0) 1 = Ok x /\
    getitem (buf s') 1 =
      Ok (if Z.testbit 0x1C3 (7 - 1)
          then Z.lor x (Z.shiftr 0x80 4)
          else Z.land x (Z.lnot (Z.shiftr 0x80 4))).
Proof.
  apply (set_column_row_by_row 4 0x1C3 1 display0);
    [split; reflexivity | lia | lia].
Defined.

(** ** Pixels *)

Lemma row_lookup (s : Matrix8x8) (r : Z) :
  wf s -> exists x, buf s !! row_index r = Some x /\ is_byte x = true.
Proof. intros Hwf. apply (wf_lookup s _ Hwf), row_index_lt. Qed.

Lemma buf_getitem_out (s : Matrix8x8) (row : Z) :
  row < - Z.of_nat (length (buf s)) \/ Z.of_nat (length (buf s)) <= row ->
  buf_getitem row s = (Raise IndexError, s).
Proof.
  intros Hrow. unfold buf_getitem, bind, gets, lift. now rewrite getitem_out.
Qed.

Lemma row_index_shift (r : Z) : row_index (r + 8) = row_index r.
Proof.
  unfold row_index. f_equal.
  rewrite <- (Z.mul_1_l 8) at 1. apply Z.mod_add. lia.
Qed.

Lemma two_row_index (r : Z) : 2 * Z.of_nat (row_index r) = 2 * (r mod 8).
Proof.
  unfold row_index. pose proof (Z.mod_pos_bound r 8 ltac:(lia)).
  now rewrite Z2Nat.id by lia.
Qed.

(** X10: the pixel methods index the rows as Python does.  For a row in
    [-8..-1] they act as for the row [r + 8]; for a row below [-8] or
    above 7 they raise [IndexError] with nothing written and nothing sent,
    whatever the column, since the row is read first. *)
Theorem pixel_row_index (r c : Z) (s : Matrix8x8) :
  wf s ->
  (-8 <= r <= -1 -> 0 <= c ->
     set_pixel r c s = set_pixel (r + 8) c s /\
     clear_pixel r c s = clear_pixel (r + 8) c s) /\
  (r < -8 \/ 7 < r ->
     set_pixel r c s = (Raise IndexError, s) /\
     clear_pixel r c s = (Raise IndexError, s)).
Proof.
  intros Hwf. split.
  - intros Hr Hc. destruct (row_lookup s r Hwf) as (x & Hx & _).
    pose proof (norm_index_row r ltac:(lia)) as Hn.
    pose proof (norm_index_row (r + 8) ltac:(lia)) as Hn'.
    rewrite row_index_shift in Hn'. split.
    + rewrite (set_pixel_run r c _ x s Hwf Hn Hc Hx).
      now rewrite (set_pixel_run (r + 8) c _ x s Hwf Hn' Hc Hx).
    + rewrite (clear_pixel_run r c _ x s Hwf Hn Hc Hx).
      now rewrite (clear_pixel_run (r + 8) c _ x s Hwf Hn' Hc Hx).
  - intros Hr. destruct Hwf as [Hlen _].
    unfold set_pixel, clear_pixel.
    split; apply bind_Raise, buf_getitem_out; rewrite Hlen; lia.
Qed.

Lemma pixel_row_index_rows :
  (set_pixel (-8) 0 display0 = set_pixel (-8 + 8) 0 display0 /\
   clear_pixel (-8) 0 display0 = clear_pixel (-8 + 8) 0 display0) /\
  (set_pixel 8 (-3) display0 = (Raise IndexError, display0) /\
   clear_pixel 8 (-3) display0 = (Raise IndexError, display0)).
Proof.
  split.
  - apply (proj1 (pixel_row_index (-8) 0 display0 wf_display0)); lia.
  - apply (proj2 (pixel_row_index 8 (-3) display0 wf_display0)); lia.
Defined.

(** X11: the column of a pixel is not checked against the width.  For a
    row in [-8..7]: a column past 7 gives the mask 0, and [set_pixel] and
    [clear_pixel] then leave the framebuffer as it is and still push the
    row; a negative column makes the shift raise [ValueError], with
    nothing written and nothing sent. *)
Theorem pixel_column_out_of_range (r c : Z) (s : Matrix8x8) :
  wf s -> -8 <= r <= 7 ->
  (8 <= c ->
     exists x,
       getitem (buf s) r = Ok x /\
       set_pixel r c s =
         (Ok tt,
          with_i2c
            (i2c s ++ [(Buf [2 * (r mod 8); rotate_right x], addr s)]) s) /\
       clear_pixel r c s =
         (Ok tt,
          with_i2c
            (i2c s ++ [(Buf [2 * (r mod 8); rotate_right x], addr s)]) s)) /\
  (c < 0 ->
     set_pixel r c s = (Raise ValueError, s) /\
     clear_pixel r c s = (Raise ValueError, s)).
Proof.
  intros Hwf Hr. destruct (row_lookup s r Hwf) as (x & Hx & _).
  pose proof (norm_index_row r Hr) as Hn.
  pose proof Hwf as [Hlen _]. split; intros Hc.
  - exists x.
    split; [apply (getitem_norm _ _ (row_index r)); now rewrite ?Hlen | ].
    rewrite (set_pixel_run r c _ x s Hwf Hn ltac:(lia) Hx).
    rewrite (clear_pixel_run r c _ x s Hwf Hn ltac:(lia) Hx).
    rewrite mask_past by exact Hc.
    change (Z.lnot 0) with (-1). rewrite Z.lor_0_r, Z.land_m1_r.
    rewrite (list_insert_id _ _ _ Hx), with_buf_buf, two_row_index.
    split; reflexivity.
  - unfold set_pixel, clear_pixel. rewrite <- Hlen in Hn.
    rewrite !(bind_Ok _ _ _ _ _ (buf_getitem_norm s r _ x Hn Hx)).
    unfold py_rshift. destruct (Z.ltb_spec c 0); [ | lia].
    split; reflexivity.
Qed.

Lemma pixel_column_out_of_range_columns :
  (exists x,
     getitem (buf display0) 3 = Ok x /\
     set_pixel 3 8 display0 =
       (Ok tt,
        with_i2c
          (i2c display0 ++ [(Buf [2 * (3 mod 8); rotate_right x], addr display0)])
          display0) /\
     clear_pixel 3 8 display0 =
       (Ok tt,
        with_i2c
          (i2c display0 ++ [(Buf [2 * (3 mod 8); rotate_right x], addr display0)])
          display0)) /\
  (set_pixel 3 (-1) display0 = (Raise ValueError, display0) /\
   clear_pixel 3 (-1) display0 = (Raise ValueError, display0)).
Proof.
  split.
  - apply (proj1 (pixel_column_out_of_range 3 8 display0 wf_display0
                    ltac:(lia))). lia.
  - apply (proj2 (pixel_column_out_of_range 3 (-1) display0 wf_display0
                    ltac:(lia))). lia.
Defined.

Lemma wf_with_i2c (l : list (data * Z)) (s : Matrix8x8) :
  wf s -> wf (with_i2c l s).
Proof. intros Hwf. exact Hwf. Qed.

(** X12: the pixel methods undo and repeat each other on the framebuffer.
    [set_pixel(r, c)] then [clear_pixel(r, c)] leaves the framebuffer
    [clear_pixel(r, c)] alone would; [clear_pixel(r, c)] then
    [set_pixel(r, c)] leaves the framebuffer [set_pixel(r, c)] alone
    would.  All four calls return. *)
Theorem pixel_set_clear_compose (r c : Z) (s : Matrix8x8) :
  wf s -> -8 <= r <= 7 -> 0 <= c ->
  exists s1 s2 t1 t2,
    set_pixel r c s = (Ok tt, s1) /\ clear_pixel r c s1 = (Ok tt, s2) /\
    clear_pixel r c s = (Ok tt, t1) /\ set_pixel r c t1 = (Ok tt, t2) /\
    buf s2 = buf t1 /\ buf t2 = buf s1.
Proof.
  intros Hwf Hr Hc. destruct (row_lookup s r Hwf) as (x & Hx & Hbx).
  pose proof (norm_index_row r Hr) as Hn.
  pose proof (row_index_lt r) as Hk. pose proof Hwf as [Hlen _].
  set (m := Z.shiftr 0x80 c).
  assert (Hset : forall y, is_byte y = true ->
            wf (with_buf (<[row_index r := y]> (buf s)) s) /\
            <[row_index r := y]> (buf s) !! row_index r = Some y).
  { intros y Hy. split; [now apply wf_insert | ].
    apply list_lookup_insert_eq. lia. }
  destruct (Hset (Z.lor x m)) as [Hwf1 Hx1];
    [apply is_byte_lor; [exact Hbx | now apply is_byte_mask] | ].
  destruct (Hset (Z.land x (Z.lnot m))) as [Hwf2 Hx2];
    [now apply is_byte_land_l | ].
  do 4 eexists.
  split; [apply (set_pixel_run r c _ x s Hwf Hn Hc Hx) | ].
  split; [apply (clear_pixel_run r c _ _ _ (wf_with_i2c _ _ Hwf1) Hn Hc Hx1) | ].
  split; [apply (clear_pixel_run r c _ x s Hwf Hn Hc Hx) | ].
  split; [apply (set_pixel_run r c _ _ _ (wf_with_i2c _ _ Hwf2) Hn Hc Hx2) | ].
  cbn [buf with_i2c with_buf]. fold m. rewrite !list_insert_insert_eq.
  split; f_equal; apply Z.bits_inj'; intros i Hi.
  - rewrite !Z.land_spec, Z.lor_spec, Z.lnot_spec by lia.
    now destruct (Z.testbit x i), (Z.testbit m i).
  - rewrite !Z.lor_spec, Z.land_spec, Z.lnot_spec by lia.
    now destruct (Z.testbit x i), (Z.testbit m i).
Qed.

Lemma pixel_set_clear_compose_7_6 :
  exists s1 s2 t1 t2,
    set_pixel 7 6 display0 = (Ok tt, s1) /\ clear_pixel 7 6 s1 = (Ok tt, s2) /\
    clear_pixel 7 6 display0 = (Ok tt, t1) /\ set_pixel 7 6 t1 = (Ok tt, t2) /\
    buf s2 = buf t1 /\ buf t2 = buf s1.
Proof.
  apply (pixel_set_clear_compose 7 6 display0 wf_display0); lia.
Defined.

(** ** The rotation of any integer *)

(** X13: [rotate_right] takes any integer, negative ones included: it
    keeps the low 8 bits only, its result is a byte, and bit [i] of the
    result is bit [i + 1] of the argument for [i < 7], bit 0 of the
    argument for [i = 7], and 0 above. *)
Theorem rotate_right_bits (x i : Z) :
  0 <= i ->
  0 <= rotate_right x <= 255 /\
  rotate_right x = rotate_right (Z.land x 0xFF) /\
  Z.testbit (rotate_right x) i =
    if i <? 7 then Z.testbit x (i + 1)
    else if i =? 7 then Z.testbit x 0 else false.
Proof.
  intros Hi. split; [ | split].
  - pose proof (rotate_right_byte x) as H. apply is_byte_range in H. lia.
  - apply rotate_right_mask.
  - now apply rotate_right_testbit.
Qed.

Lemma rotate_right_bits_minus_1 :
  0 <= rotate_right (-1) <= 255 /\
  rotate_right (-1) = rotate_right (Z.land (-1) 0xFF) /\
  Z.testbit (rotate_right (-1)) 7 =
    if 7 <? 7 then Z.testbit (-1) (7 + 1)
    else if 7 =? 7 then Z.testbit (-1) 0 else false.
Proof.
  apply (rotate_right_bits (-1) 7). lia.
Defined.

(** ** The transport *)

Lemma grown_setitem (l0 : list (data * Z)) (a row v : Z) :
  stable (grown_from l0 a) (buf_setitem row v).
Proof.
  intros s Hs. unfold buf_setitem, bind, gets, lift, modify.
  now destruct (bytearray_setitem (buf s) row v).
Qed.

Lemma grown_send (l0 : list (data * Z)) (a : Z) (d : data) :
  stable (grown_from l0 a) (_send d).
Proof.
  intros s [Ha (l & Hl & Hall)]. split; [exact Ha | ].
  exists (l ++ [(d, addr s)]). simpl. rewrite Hl, app_assoc.
  split; [reflexivity | ].
  apply Forall_app. split; [exact Hall | ]. now repeat constructor.
Qed.

Lemma grown_run (l0 : list (data * Z)) (a : Z) (o : op) :
  stable (grown_from l0 a) (run o).
Proof.
  apply stable_run.
  - apply grown_setitem.
  - apply grown_send.
  - intros v s Hs. exact Hs.
  - intros v s Hs. exact Hs.
  - intros bitmap _. unfold set.
    apply stable_bind; [apply stable_lift | intros b].
    apply stable_bind; [ | intros; apply stable__send_buf, grown_send].
    apply stable_modify. intros s Hs. exact Hs.
Qed.

(** X14: whatever calls are made, returning or raising, the transport
    only receives more: what it had received stays, in order, every new
    call goes to the address the instance was created with, and that
    address does not change. *)
Theorem transport_append_only (os : list op) (s : Matrix8x8) :
  addr (run_all os s) = addr s /\
  exists l,
    i2c (run_all os s) = i2c s ++ l /\
    Forall (fun e => snd e = addr s) l.
Proof.
  assert (H : forall s', grown_from (i2c s) (addr s) s' ->
                         grown_from (i2c s) (addr s) (run_all os s')).
  { induction os as [ | o os IH]; intros s' Hs'; [exact Hs' | ].
    simpl. apply IH. now apply grown_run. }
  apply (H s). split; [reflexivity | ].
  exists []. split; [now rewrite app_nil_r | constructor].
Qed.

Lemma quiet_setitem (l : list (data * Z)) (a row v : Z) :
  stable (transport_is l a) (buf_setitem row v).
Proof.
  intros s Hs. unfold buf_setitem, bind, gets, lift, modify.
  now destruct (bytearray_setitem (buf s) row v).
Qed.

Lemma sender__send (d : data) : sender (_send d).
Proof. intros s. left. now exists d. Qed.

Lemma sender__send_buf : sender _send_buf.
Proof.
  intros s. destruct (Nat.le_gt_cases (length (buf s)) 8).
  - left. eexists. now apply _send_buf_run.
  - right. eexists. now apply _send_buf_raise.
Qed.

Lemma sender__send_row (row : Z) : sender (_send_row row).
Proof.
  intros s. unfold _send_row, buf_getitem, bind, gets, lift.
  destruct (getitem row_addr row) as [a | e]; [ | right; now exists e].
  destruct (getitem (buf s) row) as [x | e]; [ | right; now exists e].
  destruct (bytes_of [a; rotate_right x]) as [d | e]; [ | right; now exists e].
  left. now exists (Buf d).
Qed.

Lemma one_call_sender (m : M unit) : sender m -> one_call m.
Proof.
  intros Hm s. destruct (Hm s) as [[d Hd] | [e He]].
  - left. eexists. exists d. split; [exact Hd | now split].
  - right. exists e, s. split; [exact He | now split].
Qed.

Lemma one_call_bind {A : Type} (m : M A) (f : A -> M unit) :
  (forall l a, stable (transport_is l a) m) ->
  (forall x, one_call (f x)) -> one_call (bind m f).
Proof.
  intros Hm Hf s. unfold bind.
  pose proof (Hm (i2c s) (addr s) s (conj eq_refl eq_refl)) as Hq.
  destruct (m s) as [[x | e] s1]; simpl in Hq.
  - destruct Hq as [Hi Ha]. specialize (Hf x s1). now rewrite Hi, Ha in Hf.
  - right. now exists e, s1.
Qed.

Lemma one_call_push {A : Type} (m : M A) :
  (forall l a, stable (transport_is l a) m) ->
  one_call (bind m (fun _ => _send_buf)).
Proof.
  intros Hm. apply one_call_bind; [exact Hm | ].
  intros _. apply one_call_sender, sender__send_buf.
Qed.

Lemma one_call_row (row v : Z) :
  one_call (bind (buf_setitem row v) (fun _ => _send_row row)).
Proof.
  apply one_call_bind; [intros; apply quiet_setitem | ].
  intros _. apply one_call_sender, sender__send_row.
Qed.

(** X15: every public call makes at most one transport call, and it is the
    last thing it does: a call that raises has sent nothing, and a call
    that returns has sent exactly once, but for [set_blinking] on a
    display that is off, which returns without sending. *)
Theorem one_transport_call (o : op) (s : Matrix8x8) :
  (exists s' d,
     run o s = (Ok tt, s') /\ i2c s' = i2c s ++ [(d, addr s)]) \/
  (exists s' mode,
     run o s = (Ok tt, s') /\ i2c s' = i2c s /\
     o = OpSetBlinking mode /\ is_on s = false) \/
  (exists e s', run o s = (Raise e, s') /\ i2c s' = i2c s).
Proof.
  assert (Hone : forall m : M unit, one_call m ->
            (exists s' d,
               m s = (Ok tt, s') /\ i2c s' = i2c s ++ [(d, addr s)]) \/
            (exists e s', m s = (Raise e, s') /\ i2c s' = i2c s)).
  { intros m Hm. destruct (Hm s) as [(s' & d & Hr & Hi & _) | (e & s' & Hr & Hi & _)].
    - left. now exists s', d.
    - right. now exists e, s'. }
  assert (Hfin : forall m : M unit, one_call m -> run o s = m s ->
            (exists s' d,
               run o s = (Ok tt, s') /\ i2c s' = i2c s ++ [(d, addr s)]) \/
            (exists s' mode,
               run o s = (Ok tt, s') /\ i2c s' = i2c s /\
               o = OpSetBlinking mode /\ is_on s = false) \/
            (exists e s', run o s = (Raise e, s') /\ i2c s' = i2c s)).
  { intros m Hm ->. destruct (Hone m Hm) as [H | H]; [now left | right; now right]. }
  destruct o; simpl.
  - left. eexists. eexists. split; [apply on_run | reflexivity].
  - left. eexists. eexists. split; [apply off_run | reflexivity].
  - left. eexists. eexists. split; [apply set_brightness_run | reflexivity].
  - rewrite set_blinking_run. destruct (is_on s) eqn:Hon.
    + left. eexists. eexists. split; reflexivity.
    + right. left. eexists. exists mode. repeat split.
  - apply (Hfin (set bitmap)); [ | reflexivity]. unfold set.
    apply one_call_bind; [intros l a s' Hs'; exact Hs' | intros b].
    apply one_call_push. intros l a s' Hs'. exact Hs'.
  - apply (Hfin clear); [ | reflexivity]. unfold clear.
    apply one_call_push. intros l a.
    apply stable_for_in. intros; apply quiet_setitem.
  - apply (Hfin (set_row row byte)); [ | reflexivity]. apply one_call_row.
  - apply (Hfin (clear_row row)); [ | reflexivity]. apply one_call_row.
  - apply (Hfin (set_column column byte)); [ | reflexivity].
    apply one_call_push. intros l a.
    apply stable__set_column. intros; apply quiet_setitem.
  - apply (Hfin (clear_column column)); [ | reflexivity].
    apply one_call_push. intros l a.
    apply stable__clear_column. intros; apply quiet_setitem.
  - apply (Hfin (set_pixel row column)); [ | reflexivity]. unfold set_pixel.
    apply one_call_bind; [intros; apply stable_buf_getitem | intros x].
    apply one_call_bind; [intros; apply stable_lift | intros m].
    apply one_call_row.
  - apply (Hfin (clear_pixel row column)); [ | reflexivity]. unfold clear_pixel.
    apply one_call_bind; [intros; apply stable_buf_getitem | intros x].
    apply one_call_bind; [intros; apply stable_lift | intros m].
    apply one_call_row.
Qed.

Lemma payload_injective (b b' : list Z) :
  length b = 8%nat -> length b' = 8%nat ->
  forallb is_byte b = true -> forallb is_byte b' = true ->
  payload b = payload b' -> b = b'.
Proof.
  intros Hlen Hlen' Hb Hb' Heq.
  destruct (payload_rows b Hlen) as [_ Hrows].
  destruct (payload_rows b' Hlen') as [_ Hrows'].
  apply bytes_Forall in Hb, Hb'. rewrite Forall_forall in Hb, Hb'.
  apply list_eq. intros k.
  destruct (b !! k) as [x | ] eqn:Hx, (b' !! k) as [x' | ] eqn:Hx'.
  - destruct (Hrows k x Hx) as [_ Hp]. destruct (Hrows' k x' Hx') as [_ Hp'].
    rewrite Heq, Hp' in Hp. injection Hp as Hrr. f_equal.
    assert (Hbx : is_byte x = true) by (apply Hb, list_elem_of_lookup; eauto).
    assert (Hbx' : is_byte x' = true) by (apply Hb', list_elem_of_lookup; eauto).
    apply is_byte_range in Hbx, Hbx'.
    rewrite <- (rotate_left_right x), <- (rotate_left_right x') by lia.
    now rewrite Hrr.
  - apply lookup_lt_Some in Hx. apply lookup_ge_None in Hx'. lia.
  - apply lookup_lt_Some in Hx'. apply lookup_ge_None in Hx. lia.
  - reflexivity.
Qed.

(** X16: the push loses nothing: two instances with framebuffers of 8
    bytes whose [_send_buf] sends the same buffer have the same
    framebuffer. *)
Theorem push_determines_framebuffer (s1 s2 : Matrix8x8) :
  wf s1 -> wf s2 ->
  (exists d, last (i2c (snd (_send_buf s1))) = Some (Buf d, addr s1) /\
             last (i2c (snd (_send_buf s2))) = Some (Buf d, addr s2)) ->
  buf s1 = buf s2.
Proof.
  intros [Hlen1 Hb1] [Hlen2 Hb2] (d & Hd1 & Hd2).
  rewrite _send_buf_run in Hd1, Hd2 by lia. simpl in Hd1, Hd2.
  rewrite last_snoc in Hd1, Hd2.
  injection Hd1 as Hd1. injection Hd2 as Hd2.
  apply payload_injective; try assumption. congruence.
Qed.

Lemma push_determines_framebuffer_same_column :
  buf (snd (set_column 3 0xA5 display0)) =
  buf (snd (set [0x10; 0; 0x10; 0; 0; 0x10; 0; 0x10] display0)).
Proof.
  apply push_determines_framebuffer.
  - split; vm_compute; reflexivity.
  - split; vm_compute; reflexivity.
  - exists [0; 0x08; 0; 0; 0; 0x08; 0; 0; 0; 0; 0; 0x08; 0; 0; 0; 0x08].
    split; vm_compute; reflexivity.
Defined.

(** ** The display on or off *)

Section Commutes.
Variable upd : Matrix8x8 -> Matrix8x8.

Lemma com_ret {A : Type} (a : A) : commutes upd (ret a).
Proof. intros s. reflexivity. Qed.

Lemma com_lift {A : Type} (r : result A) : commutes upd (lift r).
Proof. intros s. reflexivity. Qed.

Lemma com_bind {A B : Type} (m : M A) (k : A -> M B) :
  commutes upd m -> (forall a, commutes upd (k a)) -> commutes upd (bind m k).
Proof.
  intros Hm Hk s. unfold bind. rewrite Hm.
  destruct (m s) as [[a | e] s1]; simpl; [apply Hk | reflexivity].
Qed.

Lemma com_if {A : Type} (b : bool) (m1 m2 : M A) :
  commutes upd m1 -> commutes upd m2 -> commutes upd (if b then m1 else m2).
Proof. now destruct b. Qed.

Lemma com_for_in {A L : Type} (xs : list A) (body : A -> L -> M L) :
  (forall x l, commutes upd (body x l)) ->
  forall l, commutes upd (for_in xs body l).
Proof.
  intros Hbody. induction xs as [ | x xs IH]; intros l; simpl.
  - apply com_ret.
  - apply com_bind; [apply Hbody | exact IH].
Qed.

(** What [upd] changes is neither the framebuffer, nor the address, nor
    what the transport has received. *)
Hypothesis Hbuf : forall s, buf (upd s) = buf s.
Hypothesis Hwith_buf : forall b s, with_buf b (upd s) = upd (with_buf b s).
Hypothesis Hsent : forall d s,
  with_i2c (i2c (upd s) ++ [(d, addr (upd s))]) (upd s) =
  upd (with_i2c (i2c s ++ [(d, addr s)]) s).

Lemma com_buf_getitem (row : Z) : commutes upd (buf_getitem row).
Proof.
  intros s. unfold buf_getitem, bind, gets, lift. now rewrite Hbuf.
Qed.

Lemma com_buf_setitem (row v : Z) : commutes upd (buf_setitem row v).
Proof.
  intros s. unfold buf_setitem, bind, gets, lift, modify. rewrite Hbuf.
  destruct (bytearray_setitem (buf s) row v); simpl; [ | reflexivity].
  now rewrite Hwith_buf.
Qed.

Lemma com__send (d : data) : commutes upd (_send d).
Proof. intros s. unfold _send, modify. simpl. now rewrite Hsent. Qed.

Ltac com_step :=
  first [ apply com_buf_getitem | apply com_buf_setitem | apply com__send
        | apply com_ret | apply com_lift
        | apply com_if | apply com_bind | intros ? ].

Lemma com__send_row (row : Z) : commutes upd (_send_row row).
Proof. unfold _send_row. repeat com_step. Qed.

Lemma com__send_buf : commutes upd _send_buf.
Proof.
  intros s. rewrite _send_buf_step. unfold bind at 1 3, gets.
  rewrite Hbuf.
  apply (com_bind (for_in (buf s) send_step (bytearray_zeros 16, 1))
           (fun r => _send (Buf (fst r)))).
  - apply com_for_in. intros byte [d i]. simpl. repeat com_step.
  - intros r. apply com__send.
Qed.

Lemma com__clear_column (column : Z) : commutes upd (_clear_column column).
Proof.
  unfold _clear_column.
  apply com_bind; [apply com_lift | intros mask].
  apply com_for_in. intros row []. repeat com_step.
Qed.

Lemma com__set_column (column byte : Z) :
  commutes upd (_set_column column byte).
Proof.
  unfold _set_column.
  apply com_bind; [apply com__clear_column | intros _].
  apply com_if; [apply com_ret | ].
  apply com_bind; [ | intros; apply com_ret].
  apply com_for_in. intros row mask. cbv zeta. repeat com_step.
Qed.

Lemma com_run (o : op) : uses_is_on o = false -> uses_blinking o = false ->
  commutes upd (run o).
Proof.
  destruct o; simpl; try discriminate; intros _ _.
  - apply com__send.
  - intros s. unfold set, bind at 1, lift.
    destruct (bytes_of bitmap) as [b | e]; [ | reflexivity].
    unfold bind at 1 3, modify. rewrite Hwith_buf. apply com__send_buf.
  - unfold clear. apply com_bind; [ | intros; apply com__send_buf].
    apply com_for_in. intros; apply com_buf_setitem.
  - unfold set_row.
    apply com_bind; [apply com_buf_setitem | intros; apply com__send_row].
  - unfold clear_row, set_row.
    apply com_bind; [apply com_buf_setitem | intros; apply com__send_row].
  - unfold set_column.
    apply com_bind; [apply com__set_column | intros; apply com__send_buf].
  - unfold clear_column.
    apply com_bind; [apply com__clear_column | intros; apply com__send_buf].
  - unfold set_pixel.
    apply com_bind; [apply com_buf_getitem | intros x].
    apply com_bind; [apply com_lift | intros m].
    apply com_bind; [apply com_buf_setitem | intros; apply com__send_row].
  - unfold clear_pixel.
    apply com_bind; [apply com_buf_getitem | intros x].
    apply com_bind; [apply com_lift | intros m].
    apply com_bind; [apply com_buf_setitem | intros; apply com__send_row].
Qed.
End Commutes.

(** X17: turning the display off gates nothing.  [set_brightness] and the
    eight framebuffer methods never read [is_on]: on an instance that is
    off they return or raise, write the framebuffer and call the transport
    exactly as on the same instance on, and leave [is_on] as it was. *)
Theorem display_off_gates_nothing (o : op) (v : bool) (s : Matrix8x8) :
  uses_is_on o = false ->
  run o (with_is_on v s) = (fst (run o s), with_is_on v (snd (run o s))).
Proof.
  intros Ho. apply (com_run (with_is_on v)); try reflexivity; try exact Ho.
  now destruct o.
Qed.

Lemma display_off_gates_nothing_set_column :
  run (OpSetColumn 3 0xA5) (with_is_on false display0) =
    (fst (run (OpSetColumn 3 0xA5) display0),
     with_is_on false (snd (run (OpSetColumn 3 0xA5) display0))).
Proof.
  apply (display_off_gates_nothing (OpSetColumn 3 0xA5) false display0).
  reflexivity.
Defined.

(** ** The blinking mode across calls *)

Lemma blinking_stable_run (mode : Z) (o : op) :
  keeps_blinking o = true -> stable (fun s => _blinking s = mode) (run o).
Proof.
  set (P := fun s => _blinking s = mode).
  assert (Hsetitem : forall row v, stable P (buf_setitem row v)).
  { intros row v s Hs. unfold buf_setitem, bind, gets, lift, modify.
    now destruct (bytearray_setitem (buf s) row v). }
  assert (Hsend : forall d, stable P (_send d)) by (intros d s Hs; exact Hs).
  assert (His_on : forall v, stable P (modify (with_is_on v)))
    by (intros v s Hs; exact Hs).
  pose proof (stable__send_buf P Hsend) as Hpush.
  pose proof (stable__send_row P Hsend) as Hrow.
  destruct o; simpl; try discriminate; intros _.
  - now apply stable_on.
  - unfold off. apply stable_bind; [apply His_on | intros; apply Hsend].
  - apply Hsend.
  - unfold set.
    apply stable_bind; [apply stable_lift | intros b].
    apply stable_bind; [ | intros; exact Hpush].
    apply stable_modify. intros s Hs. exact Hs.
  - unfold clear. apply stable_bind; [ | intros; exact Hpush].
    apply stable_for_in. intros; apply Hsetitem.
  - unfold set_row. apply stable_bind; [apply Hsetitem | intros; apply Hrow].
  - unfold clear_row, set_row.
    apply stable_bind; [apply Hsetitem | intros; apply Hrow].
  - unfold set_column.
    apply stable_bind; [now apply stable__set_column | intros; exact Hpush].
  - unfold clear_column.
    apply stable_bind; [now apply stable__clear_column | intros; exact Hpush].
  - unfold set_pixel.
    apply stable_bind; [apply stable_buf_getitem | intros x].
    apply stable_bind; [apply stable_lift | intros m].
    apply stable_bind; [apply Hsetitem | intros; apply Hrow].
  - unfold clear_pixel.
    apply stable_bind; [apply stable_buf_getitem | intros x].
    apply stable_bind; [apply stable_lift | intros m].
    apply stable_bind; [apply Hsetitem | intros; apply Hrow].
Qed.

(** X18: only [set_blinking] changes the blinking mode.  After
    [set_blinking(mode)], on a display on or off, whatever other calls
    follow ([off] and [on] among them, returning or raising), the mode
    stored is still [mode], and the next [on] sends [0x81 | mode << 1] as
    its one transport call. *)
Theorem blinking_mode_persists (mode : Z) (os : list op) (s : Matrix8x8) :
  forallb keeps_blinking os = true ->
  _blinking (run_all os (snd (set_blinking mode s))) = mode /\
  exists s',
    on (run_all os (snd (set_blinking mode s))) = (Ok tt, s') /\
    i2c s' =
      i2c (run_all os (snd (set_blinking mode s))) ++
      [(Int (Z.lor 0x81 (Z.shiftl mode 1)), addr s)].
Proof.
  intros Hos.
  assert (Hkeep : forall t, _blinking t = mode ->
                            _blinking (run_all os t) = mode).
  { induction os as [ | o os IH]; intros t Ht; [exact Ht | ].
    simpl in Hos. apply andb_true_iff in Hos as [Ho Hos].
    simpl. apply (IH Hos). now apply (blinking_stable_run mode o Ho). }
  assert (Hmode : _blinking (snd (set_blinking mode s)) = mode).
  { rewrite set_blinking_run. now destruct (is_on s). }
  assert (Haddr : addr (snd (set_blinking mode s)) = addr s).
  { rewrite set_blinking_run. now destruct (is_on s). }
  split; [now apply Hkeep | ].
  eexists. split; [apply on_run | ].
  cbn [i2c with_i2c with_is_on]. rewrite (Hkeep _ Hmode).
  now rewrite addr_run_all, Haddr.
Qed.

Lemma blinking_mode_persists_off_on :
  _blinking (run_all [OpOff; OpSetRow 1 0xFF; OpOn; OpOff]
               (snd (set_blinking 3 display0))) = 3 /\
  exists s',
    on (run_all [OpOff; OpSetRow 1 0xFF; OpOn; OpOff]
          (snd (set_blinking 3 display0))) = (Ok tt, s') /\
    i2c s' =
      i2c (run_all [OpOff; OpSetRow 1 0xFF; OpOn; OpOff]
             (snd (set_blinking 3 display0))) ++
      [(Int (Z.lor 0x81 (Z.shiftl 3 1)), addr display0)].
Proof.
  apply (blinking_mode_persists 3 [OpOff; OpSetRow 1 0xFF; OpOn; OpOff]
           display0).
  reflexivity.
Defined.
